(** * Schema registry: the TypeScript SDK client and the compatibility engine

    A shallow embedding of the TypeScript SDK of the schema registry
    ([sdks/typescript]: [types.js], [errors.js], [client.ts]) together with
    the validation and compatibility core that the specification describes.

    - JavaScript numbers that the client handles (HTTP status codes, retry
      counts, clock readings in milliseconds) are integers and are modelled
      as [Z].
    - JavaScript objects used as string-keyed tables (the compiled enums of
      [types.js]) are [gmap string string].
    - The LRU cache of the client is an association list ordered by recency.
    - An [async] operation is a state-passing function: it takes the state
      of the client and returns a completion (a returned value or a thrown
      value) together with the new state.
    - Values whose interfaces are declared in [types.ts] ([Schema],
      [GetSchemaResponse], ...) are only passed through by the client; one
      abstract type [Obj] stands for them.
    - The body of an error response is taken at the type the client
      declares for it: [{ error?: string; message?: string; errors?: string[] }];
      the module [Untyped] follows [handleError] on a body that carries any
      value under [errors]. *)

From stdpp Require Import gmap strings list pretty.
From Stdlib Require Import ZArith Lia.

Open Scope string_scope.

(** ** JavaScript helpers *)

Module Js.

(** The line feed of the template literals. *)
Definition LF : string := String (Ascii.ascii_of_nat 10) EmptyString.

(** [a || b] where [a] is a possibly undefined string and [b] a string:
    the empty string and [undefined] are falsy. *)
Definition or_string (a : option string) (b : string) : string :=
  match a with
  | Some s => if String.eqb s "" then b else s
  | None => b
  end.

(** [a || b] where [a] is a possibly undefined number and [b] a number:
    [0] and [undefined] are falsy. *)
Definition or_number (a : option Z) (b : Z) : Z :=
  match a with
  | Some n => if Z.eqb n 0 then b else n
  | None => b
  end.

(** [a || b] where [a] is a possibly undefined array: every array is truthy,
    the empty one included. *)
Definition or_array {A} (a : option (list A)) (b : list A) : list A :=
  match a with
  | Some l => l
  | None => b
  end.

(** [l.join(sep)]. *)
Definition join (sep : string) (l : list string) : string := String.concat sep l.

(** [obj[k] = v] on an object used as a table. *)
Definition assign (k v : string) (obj : gmap string string) : gmap string string :=
  <[k:=v]> obj.

End Js.

(** ** types.js *)

Module Types.

(** The members of the enum [SchemaFormat]. *)
Inductive SchemaFormat := JSON_SCHEMA | AVRO | PROTOBUF.

(** The members of the enum [CompatibilityMode]. *)
Inductive CompatibilityMode :=
  | BACKWARD
  | FORWARD
  | FULL
  | BACKWARD_TRANSITIVE
  | FORWARD_TRANSITIVE
  | FULL_TRANSITIVE
  | NONE.

#[global] Instance SchemaFormat_eq_dec : EqDecision SchemaFormat.
Proof. solve_decision. Defined.

#[global] Instance CompatibilityMode_eq_dec : EqDecision CompatibilityMode.
Proof. solve_decision. Defined.

(** The object that the compiled module builds for [SchemaFormat]: the
    function body runs its assignments on the empty object. *)
Definition SchemaFormat_object : gmap string string :=
  Js.assign "PROTOBUF" "protobuf"
    (Js.assign "AVRO" "avro"
      (Js.assign "JSON_SCHEMA" "json_schema" ∅)).

(** The object that the compiled module builds for [CompatibilityMode]. *)
Definition CompatibilityMode_object : gmap string string :=
  Js.assign "NONE" "none"
    (Js.assign "FULL_TRANSITIVE" "full_transitive"
      (Js.assign "FORWARD_TRANSITIVE" "forward_transitive"
        (Js.assign "BACKWARD_TRANSITIVE" "backward_transitive"
          (Js.assign "FULL" "full"
            (Js.assign "FORWARD" "forward"
              (Js.assign "BACKWARD" "backward" ∅)))))).

(** The property name of a member in the enum object. *)
Definition mode_key (m : CompatibilityMode) : string :=
  match m with
  | BACKWARD => "BACKWARD"
  | FORWARD => "FORWARD"
  | FULL => "FULL"
  | BACKWARD_TRANSITIVE => "BACKWARD_TRANSITIVE"
  | FORWARD_TRANSITIVE => "FORWARD_TRANSITIVE"
  | FULL_TRANSITIVE => "FULL_TRANSITIVE"
  | NONE => "NONE"
  end.

(** The runtime value of a member. *)
Definition mode_value (m : CompatibilityMode) : string :=
  match m with
  | BACKWARD => "backward"
  | FORWARD => "forward"
  | FULL => "full"
  | BACKWARD_TRANSITIVE => "backward_transitive"
  | FORWARD_TRANSITIVE => "forward_transitive"
  | FULL_TRANSITIVE => "full_transitive"
  | NONE => "none"
  end.

(** The members in declaration order. *)
Definition all_modes : list CompatibilityMode :=
  [BACKWARD; FORWARD; FULL; BACKWARD_TRANSITIVE; FORWARD_TRANSITIVE;
   FULL_TRANSITIVE; NONE].

End Types.

(** ** errors.js *)

Module Errors.

(** The classes of the module, and [Error] which they extend. *)
Module Class.
Inductive t :=
  | Error
  | SchemaRegistryError
  | SchemaNotFoundError
  | SchemaValidationError
  | IncompatibleSchemaError
  | AuthenticationError
  | AuthorizationError
  | RateLimitError
  | ServerError.
End Class.

#[global] Instance Class_eq_dec : EqDecision Class.t.
Proof. solve_decision. Defined.

(** [class C extends D]. *)
Definition extends (c : Class.t) : option Class.t :=
  match c with
  | Class.Error => None
  | Class.SchemaRegistryError => Some Class.Error
  | Class.SchemaNotFoundError
  | Class.SchemaValidationError
  | Class.IncompatibleSchemaError
  | Class.AuthenticationError
  | Class.AuthorizationError
  | Class.RateLimitError
  | Class.ServerError => Some Class.SchemaRegistryError
  end.

(** The prototype chain of an instance of [c], followed for at most [n]
    links beyond [c]. *)
Fixpoint prototype_chain (n : nat) (c : Class.t) : list Class.t :=
  c :: match n, extends c with
       | S k, Some d => prototype_chain k d
       | _, _ => []
       end.

(** [x instanceof d] for an [x] whose prototype is that of class [c]. Nine
    classes bound the length of any chain. *)
Definition instanceof (c d : Class.t) : bool :=
  bool_decide (d ∈ prototype_chain 9 c).

(** An instance of [SchemaRegistryError] or of a subclass: its prototype
    and its own properties. A property that a class does not set is
    [None]. *)
Record SdkError := {
  proto : Class.t;
  name : string;
  message : string;
  statusCode : option Z;
  schemaId : option string;
  errors : option (list string);
  incompatibilities : option (list string);
  retryAfter : option Z;
}.

(** [new SchemaRegistryError(message, statusCode)]. *)
Definition SchemaRegistryError (message : string) (statusCode : option Z) : SdkError :=
  {| proto := Class.SchemaRegistryError;
     name := "SchemaRegistryError";
     message := message;
     statusCode := statusCode;
     schemaId := None;
     errors := None;
     incompatibilities := None;
     retryAfter := None |}.

(** [new SchemaNotFoundError(schemaId)]. *)
Definition SchemaNotFoundError (schemaId : string) : SdkError :=
  let this := SchemaRegistryError ("Schema not found: " ++ schemaId) (Some 404%Z) in
  {| proto := Class.SchemaNotFoundError;
     name := "SchemaNotFoundError";
     message := message this;
     statusCode := statusCode this;
     schemaId := Some schemaId;
     errors := errors this;
     incompatibilities := incompatibilities this;
     retryAfter := retryAfter this |}.

(** [new SchemaValidationError(errors)]. *)
Definition SchemaValidationError (errs : list string) : SdkError :=
  let message :=
    "Schema validation failed:" ++ Js.LF
      ++ Js.join Js.LF (map (fun e => "  - " ++ e) errs) in
  let this := SchemaRegistryError message (Some 400%Z) in
  {| proto := Class.SchemaValidationError;
     name := "SchemaValidationError";
     message := Errors.message this;
     statusCode := statusCode this;
     schemaId := schemaId this;
     errors := Some errs;
     incompatibilities := incompatibilities this;
     retryAfter := retryAfter this |}.

(** [new IncompatibleSchemaError(incompatibilities)]. *)
Definition IncompatibleSchemaError (incompats : list string) : SdkError :=
  let message :=
    "Schema compatibility check failed:" ++ Js.LF
      ++ Js.join Js.LF (map (fun i => "  - " ++ i) incompats) in
  let this := SchemaRegistryError message (Some 409%Z) in
  {| proto := Class.IncompatibleSchemaError;
     name := "IncompatibleSchemaError";
     message := Errors.message this;
     statusCode := statusCode this;
     schemaId := schemaId this;
     errors := errors this;
     incompatibilities := Some incompats;
     retryAfter := retryAfter this |}.

(** [new AuthenticationError(message)]; the default applies to an omitted
    argument. *)
Definition AuthenticationError (msg : option string) : SdkError :=
  let message := default "Authentication failed" msg in
  let this := SchemaRegistryError message (Some 401%Z) in
  {| proto := Class.AuthenticationError;
     name := "AuthenticationError";
     message := Errors.message this;
     statusCode := statusCode this;
     schemaId := schemaId this;
     errors := errors this;
     incompatibilities := incompatibilities this;
     retryAfter := retryAfter this |}.

(** [new AuthorizationError(message)]. *)
Definition AuthorizationError (msg : option string) : SdkError :=
  let message := default "Insufficient permissions" msg in
  let this := SchemaRegistryError message (Some 403%Z) in
  {| proto := Class.AuthorizationError;
     name := "AuthorizationError";
     message := Errors.message this;
     statusCode := statusCode this;
     schemaId := schemaId this;
     errors := errors this;
     incompatibilities := incompatibilities this;
     retryAfter := retryAfter this |}.

(** [new RateLimitError(retryAfter)]; [0] and an omitted argument are
    falsy. The argument is an integer here, printed in full; [handleError]
    calls the constructor without it. *)
Definition RateLimitError (retry : option Z) : SdkError :=
  let message :=
    match retry with
    | Some n =>
        if Z.eqb n 0 then "Rate limit exceeded"
        else "Rate limit exceeded. Retry after " ++ pretty n ++ " seconds"
    | None => "Rate limit exceeded"
    end in
  let this := SchemaRegistryError message (Some 429%Z) in
  {| proto := Class.RateLimitError;
     name := "RateLimitError";
     message := Errors.message this;
     statusCode := statusCode this;
     schemaId := schemaId this;
     errors := errors this;
     incompatibilities := incompatibilities this;
     retryAfter := retry |}.

(** [new ServerError(message)]. *)
Definition ServerError (msg : option string) : SdkError :=
  let message := default "Internal server error" msg in
  let this := SchemaRegistryError message (Some 500%Z) in
  {| proto := Class.ServerError;
     name := "ServerError";
     message := Errors.message this;
     statusCode := statusCode this;
     schemaId := schemaId this;
     errors := errors this;
     incompatibilities := incompatibilities this;
     retryAfter := retryAfter this |}.

End Errors.

(** ** axios: the errors and requests the client sees *)

Module Axios.

(** The body of an error response, at the type [handleError] declares. *)
Module Data.
Record t := {
  error : option string;
  message : option string;
  errors : option (list string);
}.
End Data.

(** [error.response]: the status code and the body, which may be absent. *)
Module Response.
Record t := {
  status : Z;
  data : option Data.t;
}.
End Response.

(** An [AxiosError]: its message, its [code], the method of the request in
    [config] and the response, absent when none was received. *)
Module AxiosError.
Record t := {
  message : string;
  code : option string;
  method : option string;
  response : option Response.t;
}.
End AxiosError.

Inductive Method := GET | POST | DELETE.

(** The lower-case name axios stores in [config.method]. *)
Definition method_name (m : Method) : string :=
  match m with
  | GET => "get"
  | POST => "post"
  | DELETE => "delete"
  end.

End Axios.

(** ** client.ts *)

Module Client.

Import Axios.

(** Any value a [catch] clause can receive. *)
Inductive Thrown :=
  | ThrownAxios (e : AxiosError.t)
      (** [axios.isAxiosError] holds *)
  | ThrownSdk (e : Errors.SdkError)
      (** an instance of [SchemaRegistryError] *)
  | ThrownError (message : string)
      (** any other instance of [Error] *)
  | ThrownOther
      (** a value that is not an instance of [Error] *).

(** [ClientConfig]; an optional property that is not set is [None]. *)
Record ClientConfig := {
  baseURL : string;
  apiKey : option string;
  timeout : option Z;
  maxRetries : option Z;
  cacheMaxSize : option Z;
  cacheTTL : option Z;
}.

(** *** handleError *)

(** [axiosError.response?.status]. *)
Definition response_status (axiosError : AxiosError.t) : option Z :=
  Response.status <$> AxiosError.response axiosError.

(** [axiosError.response?.data?.message || axiosError.response?.data?.error
     || axiosError.message]. *)
Definition response_message (axiosError : AxiosError.t) : string :=
  let data := AxiosError.response axiosError ≫= Response.data in
  Js.or_string (data ≫= Data.message)
    (Js.or_string (data ≫= Data.error) (AxiosError.message axiosError)).

(** [axiosError.response?.data?.errors || [message]]. *)
Definition response_errors (axiosError : AxiosError.t) : list string :=
  let data := AxiosError.response axiosError ≫= Response.data in
  Js.or_array (data ≫= Data.errors) [response_message axiosError].

(** [handleError(error)]. *)
Definition handleError (error : Thrown) : Errors.SdkError :=
  match error with
  | ThrownAxios axiosError =>
      let status := response_status axiosError in
      let message := response_message axiosError in
      let errors := response_errors axiosError in
      match status with
      | Some 401%Z
      | Some 403%Z => Errors.AuthenticationError (Some message)
      | Some 404%Z => Errors.SchemaNotFoundError message
      | Some 409%Z => Errors.IncompatibleSchemaError errors
      | Some 422%Z => Errors.SchemaValidationError errors
      | Some 429%Z => Errors.RateLimitError None
      | _ => Errors.SchemaRegistryError message status
      end
  | ThrownSdk e => Errors.SchemaRegistryError (Errors.message e) None
  | ThrownError message => Errors.SchemaRegistryError message None
  | ThrownOther => Errors.SchemaRegistryError "Unknown error occurred" None
  end.

(** *** The LRU cache

    The cache of the [lru-cache] package as the client uses it: entries in
    order of recency, the most recently used first, each stamped with the
    clock reading of its [set]. An entry is stale once its age exceeds
    [ttl]; a stale entry is dropped by the [get] that finds it. *)

Section Cache.

Context {Obj : Type}.

Record Entry := {
  key : string;
  value : Obj;
  start : Z;
}.

Definition is_key (k : string) (e : Entry) : bool := String.eqb (key e) k.

Definition is_stale (ttl now : Z) (e : Entry) : bool := (ttl <? now - start e)%Z.

(** The entry stored under [k], whatever its age. *)
Definition cache_peek (k : string) (c : list Entry) : option Entry :=
  find (is_key k) c.

(** [cache.delete(k)]. *)
Definition cache_delete (k : string) (c : list Entry) : list Entry :=
  List.filter (fun e => negb (is_key k e)) c.

(** [cache.get(k)] at clock reading [now]: the value, if any, and the
    cache afterwards. *)
Definition cache_get (ttl now : Z) (k : string) (c : list Entry) :
    option Obj * list Entry :=
  match cache_peek k c with
  | None => (None, c)
  | Some e =>
      if is_stale ttl now e then (None, cache_delete k c)
      else (Some (value e), e :: cache_delete k c)
  end.

(** [cache.set(k, v)] at clock reading [now]: the entry becomes the most
    recent one and the least recent ones beyond [max] are evicted. *)
Definition cache_set (max : nat) (now : Z) (k : string) (v : Obj)
    (c : list Entry) : list Entry :=
  take max ({| key := k; value := v; start := now |} :: cache_delete k c).

(** [cache.clear()]. *)
Definition cache_clear (c : list Entry) : list Entry := [].

End Cache.

Arguments Entry Obj : clear implicits.

(** *** Requests and the state of a client *)

(** What an operation sends along with a request. *)
Inductive Body (Obj : Type) :=
  | NoBody
  | SchemaBody (schema : Obj)
      (** the [schema] of [registerSchema] *)
  | DataBody (data : Obj)
      (** [{ data }] *)
  | NewSchemaBody (schema : string)
      (** [{ schema: newSchema }] *)
  | QueryParams (q : string)
      (** [{ params: { q: query } }] *).

Arguments NoBody {Obj}.
Arguments SchemaBody {Obj} schema.
Arguments DataBody {Obj} data.
Arguments NewSchemaBody {Obj} schema.
Arguments QueryParams {Obj} q.

Record Request (Obj : Type) := {
  method : Method;
  url : string;
  body : Body Obj;
}.

Arguments method {Obj} r.
Arguments url {Obj} r.
Arguments body {Obj} r.

(** How one HTTP attempt settles: axios fulfils the promise with the
    response, of which the client reads [data], or rejects it. *)
Inductive Settled (Obj : Type) :=
  | Fulfilled (data : Obj)
  | Rejected (reason : Thrown).

Arguments Fulfilled {Obj} data.
Arguments Rejected {Obj} reason.

(** How a call of an operation completes. *)
Inductive Completion (A : Type) :=
  | Returned (a : A)
  | Threw (e : Thrown).

Arguments Returned {A} a.
Arguments Threw {A} e.

(** The mutable part of a client: the cache, and the HTTP attempts made so
    far, the latest first. *)
Record State (Obj : Type) := {
  cache : list (Entry Obj);
  log : list (Request Obj);
}.

Arguments cache {Obj} s.
Arguments log {Obj} s.

Section Operations.

Context {Obj : Type}.

(** [axiosRetry.isNetworkOrIdempotentRequestError], a function of the
    [axios-retry] package. *)
Variable isNetworkOrIdempotentRequestError : AxiosError.t -> bool.

(** The configuration the client was constructed with. *)
Variable config : ClientConfig.

(** The network and the server: how the [n]-th HTTP attempt of the client
    settles, given its request. *)
Variable net : nat -> Request Obj -> Settled Obj.

(** [retries: config.maxRetries || 3]. *)
Definition retries : Z := Js.or_number (maxRetries config) 3.

(** The [retryCondition] of the constructor. *)
Definition retryCondition (error : AxiosError.t) : bool :=
  isNetworkOrIdempotentRequestError error
  || bool_decide (response_status error = Some 429%Z)
  || (500 <=? Js.or_number (response_status error) 0)%Z.

(** [max: config.cacheMaxSize || 1000]. *)
Definition max : nat := Z.to_nat (Js.or_number (cacheMaxSize config) 1000).

(** [ttl: config.cacheTTL || 300000]. *)
Definition ttl : Z := Js.or_number (cacheTTL config) 300000.

(** The state after the constructor. *)
Definition new_client : State Obj := {| cache := []; log := [] |}.

(** One request through the axios instance with [axios-retry] installed.
    [left] is [retries - retryCount], the number of retries still allowed:
    a rejection with an axios error is retried while [retryCount < retries]
    and [retryCondition(error)]. Every attempt is logged.

    The package also gives a retry up when its back-off delay does not fit
    into what is left of the timeout of the request; the clock is not part
    of the model, which takes the timeout to be long enough. What the
    properties state of the number of attempts are bounds, and the cases
    in which no retry is due, which do not depend on it. *)
Fixpoint send (left : nat) (request : Request Obj) (attempts : list (Request Obj))
    : Settled Obj * list (Request Obj) :=
  let attempts' := request :: attempts in
  match net (length attempts) request with
  | Rejected (ThrownAxios error) =>
      match left with
      | S left' =>
          if retryCondition error then send left' request attempts'
          else (Rejected (ThrownAxios error), attempts')
      | O => (Rejected (ThrownAxios error), attempts')
      end
  | settled => (settled, attempts')
  end.

(** [await this.client.get/post/delete(...)]. *)
Definition http (request : Request Obj) (st : State Obj) : Settled Obj * State Obj :=
  let (settled, attempts) := send (Z.to_nat retries) request (log st) in
  (settled, {| cache := cache st; log := attempts |}).

(** The [try { ... return response.data } catch (error) { throw
    this.handleError(error) }] that the operations share. *)
Definition try_request (request : Request Obj) (st : State Obj)
    : Completion Obj * State Obj :=
  match http request st with
  | (Fulfilled data, st') => (Returned data, st')
  | (Rejected error, st') => (Threw (ThrownSdk (handleError error)), st')
  end.

Definition registerSchema (schema : Obj) : State Obj -> Completion Obj * State Obj :=
  try_request {| method := POST; url := "/schemas"; body := SchemaBody schema |}.

(** The key under which [getSchema] caches and [deleteSchema] invalidates. *)
Definition cacheKey (namespace name version : string) : string :=
  namespace ++ ":" ++ name ++ ":" ++ version.

(** [getSchema]; [now] and [later] are the readings of the cache's clock
    at [cache.get] and, after the response, at [cache.set]. *)
Definition getSchema (now later : Z) (namespace name version : string) (st : State Obj)
    : Completion Obj * State Obj :=
  let cacheKey := cacheKey namespace name version in
  let (cached, c) := cache_get ttl now cacheKey (cache st) in
  match cached with
  | Some cached => (Returned cached, {| cache := c; log := log st |})
  | None =>
      match
        http {| method := GET;
                url := "/schemas/" ++ namespace ++ "/" ++ name ++ "/" ++ version;
                body := NoBody |}
             {| cache := c; log := log st |}
      with
      | (Fulfilled data, st') =>
          (Returned data,
           {| cache := cache_set max later cacheKey data (cache st'); log := log st' |})
      | (Rejected error, st') => (Threw (ThrownSdk (handleError error)), st')
      end
  end.

Definition getLatestSchema (namespace name : string)
    : State Obj -> Completion Obj * State Obj :=
  try_request {| method := GET;
                 url := "/schemas/" ++ namespace ++ "/" ++ name ++ "/latest";
                 body := NoBody |}.

Definition validate (namespace name version : string) (data : Obj)
    : State Obj -> Completion Obj * State Obj :=
  try_request {| method := POST;
                 url := "/schemas/" ++ namespace ++ "/" ++ name ++ "/" ++ version
                          ++ "/validate";
                 body := DataBody data |}.

Definition checkCompatibility (namespace name newSchema : string)
    : State Obj -> Completion Obj * State Obj :=
  try_request {| method := POST;
                 url := "/schemas/" ++ namespace ++ "/" ++ name ++ "/compatibility";
                 body := NewSchemaBody newSchema |}.

Definition searchSchemas (query : string) : State Obj -> Completion Obj * State Obj :=
  try_request {| method := GET; url := "/schemas/search"; body := QueryParams query |}.

Definition listSchemas (namespace : string) : State Obj -> Completion Obj * State Obj :=
  try_request {| method := GET; url := "/schemas/" ++ namespace; body := NoBody |}.

Definition deleteSchema (namespace name version : string) (st : State Obj)
    : Completion unit * State Obj :=
  match
    http {| method := DELETE;
            url := "/schemas/" ++ namespace ++ "/" ++ name ++ "/" ++ version;
            body := NoBody |} st
  with
  | (Fulfilled _, st') =>
      let cacheKey := cacheKey namespace name version in
      (Returned tt, {| cache := cache_delete cacheKey (cache st'); log := log st' |})
  | (Rejected error, st') => (Threw (ThrownSdk (handleError error)), st')
  end.

Definition clearCache (st : State Obj) : Completion unit * State Obj :=
  (Returned tt, {| cache := cache_clear (cache st); log := log st |}).

(** A call of a public operation of the client. *)
Inductive Call :=
  | CallRegisterSchema (schema : Obj)
  | CallGetSchema (now later : Z) (namespace name version : string)
  | CallGetLatestSchema (namespace name : string)
  | CallValidate (namespace name version : string) (data : Obj)
  | CallCheckCompatibility (namespace name newSchema : string)
  | CallSearchSchemas (query : string)
  | CallListSchemas (namespace : string)
  | CallDeleteSchema (namespace name version : string)
  | CallClearCache.

(** Forget what a completion returns. *)
Definition outcome {A} (r : Completion A * State Obj) : Completion unit * State Obj :=
  match r with
  | (Returned _, st) => (Returned tt, st)
  | (Threw e, st) => (Threw e, st)
  end.

(** Run a call: how it completes and the state it leaves. *)
Definition run (c : Call) (st : State Obj) : Completion unit * State Obj :=
  match c with
  | CallRegisterSchema schema => outcome (registerSchema schema st)
  | CallGetSchema now later namespace name version =>
      outcome (getSchema now later namespace name version st)
  | CallGetLatestSchema namespace name => outcome (getLatestSchema namespace name st)
  | CallValidate namespace name version data =>
      outcome (validate namespace name version data st)
  | CallCheckCompatibility namespace name newSchema =>
      outcome (checkCompatibility namespace name newSchema st)
  | CallSearchSchemas query => outcome (searchSchemas query st)
  | CallListSchemas namespace => outcome (listSchemas namespace st)
  | CallDeleteSchema namespace name version =>
      outcome (deleteSchema namespace name version st)
  | CallClearCache => clearCache st
  end.

End Operations.

(** The retry helper of [axios-retry] on the errors of the examples below,
    all of which carry a response: such an error is a retryable
    idempotent-request error when its method is idempotent, its code is
    not [ECONNABORTED] and its status is 429 or in the 5xx range. For an
    error without a response the package also consults lists of error
    codes and the method, which this definition does not follow; the
    examples use no such error. *)
Definition isNetworkOrIdempotentRequestError (error : AxiosError.t) : bool :=
  match AxiosError.response error with
  | Some response =>
      bool_decide (AxiosError.code error ≠ Some "ECONNABORTED")
      && bool_decide (default "" (AxiosError.method error)
                        ∈ ["get"; "head"; "options"; "put"; "delete"])
      && (bool_decide (Response.status response = 429%Z)
          || (500 <=? Response.status response)%Z
             && (Response.status response <=? 599)%Z)
  | None =>
      bool_decide (AxiosError.code error ≠ None)
      && bool_decide (AxiosError.code error ≠ Some "ECONNABORTED")
  end.

End Client.

(** ** client.ts on response bodies as they arrive

    [handleError] casts the error it caught to an axios error whose body
    has the declared type; the cast checks nothing. This module follows
    [handleError] and the operations built on the shared [try]/[catch]
    with the property [errors] of the body as it arrives: it may be any
    value, and the constructors of [SchemaValidationError] and
    [IncompatibleSchemaError] call [.map] on what they are given. The
    properties [message] and [error] stay at their declared type. *)

Module Untyped.

(** What a response body carries under [errors]. *)
Inductive ErrorsValue :=
  | Undefined
      (** the property is absent *)
  | Array (items : list string)
      (** an array, the declared type *)
  | Other (truthy : bool)
      (** any other value: null, a boolean, a number, a string or an
          object; the code tests whether it is truthy *).

Module Data.
Record t := {
  error : option string;
  message : option string;
  errors : ErrorsValue;
}.
End Data.

Module Response.
Record t := {
  status : Z;
  data : option Data.t;
}.
End Response.

Module AxiosError.
Record t := {
  message : string;
  code : option string;
  method : option string;
  response : option Response.t;
}.
End AxiosError.

(** Any value a [catch] clause can receive. *)
Inductive Thrown :=
  | ThrownAxios (e : AxiosError.t)
  | ThrownSdk (e : Errors.SdkError)
  | ThrownError (message : string)
  | ThrownOther.

(** How a call of a constructor or of [handleError] ends: with the error
    it builds, or with a [TypeError] of the given message. *)
Inductive Built :=
  | Instance (e : Errors.SdkError)
  | TypeError (message : string).

(** The value of [errors || [message]] when it is an array; [None] stands
    for a truthy value that is no array. *)
Definition or_array (a : ErrorsValue) (b : list string) : option (list string) :=
  match a with
  | Undefined => Some b
  | Array items => Some items
  | Other truthy => if truthy then None else Some b
  end.

(** [new SchemaValidationError(errors)]: a value that is no array has no
    method [map]. *)
Definition SchemaValidationError (errors : option (list string)) : Built :=
  match errors with
  | Some errs => Instance (Errors.SchemaValidationError errs)
  | None => TypeError "errors.map is not a function"
  end.

(** [new IncompatibleSchemaError(incompatibilities)]. *)
Definition IncompatibleSchemaError (incompatibilities : option (list string)) : Built :=
  match incompatibilities with
  | Some incompats => Instance (Errors.IncompatibleSchemaError incompats)
  | None => TypeError "incompatibilities.map is not a function"
  end.

(** [axiosError.response?.status]. *)
Definition response_status (axiosError : AxiosError.t) : option Z :=
  Response.status <$> AxiosError.response axiosError.

(** [axiosError.response?.data?.message || axiosError.response?.data?.error
     || axiosError.message]. *)
Definition response_message (axiosError : AxiosError.t) : string :=
  let data := AxiosError.response axiosError ≫= Response.data in
  Js.or_string (data ≫= Data.message)
    (Js.or_string (data ≫= Data.error) (AxiosError.message axiosError)).

(** [axiosError.response?.data?.errors]. *)
Definition errors_value (axiosError : AxiosError.t) : ErrorsValue :=
  match AxiosError.response axiosError ≫= Response.data with
  | Some data => Data.errors data
  | None => Undefined
  end.

(** [handleError(error)]. *)
Definition handleError (error : Thrown) : Built :=
  match error with
  | ThrownAxios axiosError =>
      let status := response_status axiosError in
      let message := response_message axiosError in
      let errors := or_array (errors_value axiosError) [message] in
      match status with
      | Some 401%Z
      | Some 403%Z => Instance (Errors.AuthenticationError (Some message))
      | Some 404%Z => Instance (Errors.SchemaNotFoundError message)
      | Some 409%Z => IncompatibleSchemaError errors
      | Some 422%Z => SchemaValidationError errors
      | Some 429%Z => Instance (Errors.RateLimitError None)
      | _ => Instance (Errors.SchemaRegistryError message status)
      end
  | ThrownSdk e => Instance (Errors.SchemaRegistryError (Errors.message e) None)
  | ThrownError message => Instance (Errors.SchemaRegistryError message None)
  | ThrownOther => Instance (Errors.SchemaRegistryError "Unknown error occurred" None)
  end.

(** [throw this.handleError(error)]: what leaves the [catch] clause. *)
Definition rethrow (error : Thrown) : Client.Thrown :=
  match handleError error with
  | Instance e => Client.ThrownSdk e
  | TypeError message => Client.ThrownError message
  end.






(** How one HTTP attempt settles. *)
Inductive Settled (Obj : Type) :=
  | Fulfilled (data : Obj)
  | Rejected (reason : Thrown).

Arguments Fulfilled {Obj} data.
Arguments Rejected {Obj} reason.

Section Operations.

Context {Obj : Type}.

Variable isNetworkOrIdempotentRequestError : AxiosError.t -> bool.
Variable config : Client.ClientConfig.
Variable net : nat -> Client.Request Obj -> Settled Obj.

(** The [retryCondition] of the constructor. *)
Definition retryCondition (error : AxiosError.t) : bool :=
  isNetworkOrIdempotentRequestError error
  || bool_decide (response_status error = Some 429%Z)
  || (500 <=? Js.or_number (response_status error) 0)%Z.

(** One request through the axios instance, as [Client.send]. *)
Fixpoint send (left : nat) (request : Client.Request Obj)
    (attempts : list (Client.Request Obj))
    : Settled Obj * list (Client.Request Obj) :=
  let attempts' := request :: attempts in
  match net (length attempts) request with
  | Rejected (ThrownAxios error) =>
      match left with
      | S left' =>
          if retryCondition error then send left' request attempts'
          else (Rejected (ThrownAxios error), attempts')
      | O => (Rejected (ThrownAxios error), attempts')
      end
  | settled => (settled, attempts')
  end.

(** [await this.client.get/post/delete(...)]. *)
Definition http (request : Client.Request Obj) (st : Client.State Obj)
    : Settled Obj * Client.State Obj :=
  let (settled, attempts) := send (Z.to_nat (Client.retries config)) request
                               (Client.log st) in
  (settled, {| Client.cache := Client.cache st; Client.log := attempts |}).

(** The [try { ... return response.data } catch (error) { throw
    this.handleError(error) }] that the operations share. *)
Definition try_request (request : Client.Request Obj) (st : Client.State Obj)
    : Client.Completion Obj * Client.State Obj :=
  match http request st with
  | (Fulfilled data, st') => (Client.Returned data, st')
  | (Rejected error, st') => (Client.Threw (rethrow error), st')
  end.

Definition registerSchema (schema : Obj)
    : Client.State Obj -> Client.Completion Obj * Client.State Obj :=
  try_request {| Client.method := Axios.POST;
                 Client.url := "/schemas";
                 Client.body := Client.SchemaBody schema |}.

Definition validate (namespace name version : string) (data : Obj)
    : Client.State Obj -> Client.Completion Obj * Client.State Obj :=
  try_request {| Client.method := Axios.POST;
                 Client.url := "/schemas/" ++ namespace ++ "/" ++ name ++ "/"
                                 ++ version ++ "/validate";
                 Client.body := Client.DataBody data |}.

Definition checkCompatibility (namespace name newSchema : string)
    : Client.State Obj -> Client.Completion Obj * Client.State Obj :=
  try_request {| Client.method := Axios.POST;
                 Client.url := "/schemas/" ++ namespace ++ "/" ++ name
                                 ++ "/compatibility";
                 Client.body := Client.NewSchemaBody newSchema |}.

End Operations.



(** A server that answers every attempt with the same error. *)
Definition always (error : AxiosError.t)
    : nat -> Client.Request string -> Settled string :=
  fun _ _ => Rejected (ThrownAxios error).

(** The retry helper on an error that carries a response, as
    [Client.isNetworkOrIdempotentRequestError]. *)
Definition isNetworkOrIdempotentRequestError (error : AxiosError.t) : bool :=
  match AxiosError.response error with
  | Some response =>
      bool_decide (AxiosError.code error ≠ Some "ECONNABORTED")
      && bool_decide (default "" (AxiosError.method error)
                        ∈ ["get"; "head"; "options"; "put"; "delete"])
      && (bool_decide (Response.status response = 429%Z)
          || (500 <=? Response.status response)%Z
             && (Response.status response <=? 599)%Z)
  | None =>
      bool_decide (AxiosError.code error ≠ None)
      && bool_decide (AxiosError.code error ≠ Some "ECONNABORTED")
  end.

End Untyped.

(** ** The compatibility engine

    The SDK only calls the engine over HTTP. The definitions of this module
    follow the specification of the engine: its data model, the
    compatibility engine and the external interfaces. *)

Module Engine.

Import Types.

(** Modelled from the spec: the normalized AST [SchemaNode] of the data
    model, whose implementation is missing. The variants and their
    components are those the specification lists; a primitive kind is kept
    as its type name, and [Enum] also carries the default symbol for
    unknowns that the rule for enums consults. *)
#[local] Unset Elimination Schemes.

Inductive SchemaNode :=
  | Primitive (kind : string)
  | Record (name : string) (fields : list SchemaNode)
  | Field (name : string) (type : SchemaNode) (required : bool)
      (default : option string)
  | Array (elementType : SchemaNode)
  | Map (valueType : SchemaNode)
  | Enum (name : string) (symbols : list string) (defaultSymbol : option string)
  | Union (members : list SchemaNode).

#[local] Set Elimination Schemes.

(** Structural induction on a node, with the induction hypothesis for
    every node of the lists it contains. *)
Section Induction.

Variable P : SchemaNode -> Prop.
Hypothesis case_Primitive : ∀ kind, P (Primitive kind).
Hypothesis case_Record : ∀ name fields, Forall P fields -> P (Record name fields).
Hypothesis case_Field :
  ∀ name type required default, P type -> P (Field name type required default).
Hypothesis case_Array : ∀ elementType, P elementType -> P (Array elementType).
Hypothesis case_Map : ∀ valueType, P valueType -> P (Map valueType).
Hypothesis case_Enum : ∀ name symbols defaultSymbol, P (Enum name symbols defaultSymbol).
Hypothesis case_Union : ∀ members, Forall P members -> P (Union members).

Fixpoint SchemaNode_ind (node : SchemaNode) : P node :=
  let all :=
    fix all (nodes : list SchemaNode) : Forall P nodes :=
      match nodes with
      | [] => @List.Forall_nil _ P
      | n :: nodes' => @List.Forall_cons _ P n nodes' (SchemaNode_ind n) (all nodes')
      end in
  match node with
  | Primitive kind => case_Primitive kind
  | Record name fields => case_Record name fields (all fields)
  | Field name type required default =>
      case_Field name type required default (SchemaNode_ind type)
  | Array elementType => case_Array elementType (SchemaNode_ind elementType)
  | Map valueType => case_Map valueType (SchemaNode_ind valueType)
  | Enum name symbols defaultSymbol => case_Enum name symbols defaultSymbol
  | Union members => case_Union members (all members)
  end.

End Induction.

(** Modelled from the spec: the concrete member types a writer may produce,
    missing with the engine: the members of a union, the node itself
    otherwise. *)
Definition produced (writer : SchemaNode) : list SchemaNode :=
  match writer with
  | Union members => members
  | _ => [writer]
  end.

(** Modelled from the spec: the two widenings of primitives that the
    specification names, missing with the engine; the full table is left
    open there, and [canRead] takes the table as an argument. *)
Definition named_widenings (writer reader : string) : bool :=
  (String.eqb writer "int32" && String.eqb reader "int64")
  || (String.eqb writer "float" && String.eqb reader "double").

Section CanRead.

(** Modelled from the spec: the table of primitive widenings, which the
    specification leaves open: [widens w r] when a value written as kind
    [w] is readable as kind [r]. *)
Variable widens : string -> string -> bool.

(** Modelled from the spec: the pairwise predicate [canRead(writer,
    reader)] of the compatibility engine, which is missing.

    - Primitive: the same kind, or a widening of the writer's kind.
    - Record: every field required by the reader exists in the writer with
      a compatible type or has a default in the reader; fields only the
      writer has are ignored.
    - Enum: every symbol of the writer is a symbol of the reader, or the
      reader declares a default symbol.
    - Union: every member type the writer may produce is accepted by at
      least one member of the reader.
    - Array, Map and a lone Field, for which the specification states no
      rule of their own, are read through their element, value and field
      type.
    - Nodes of different variants are not readable. *)
Fixpoint canRead (writer reader : SchemaNode) {struct reader} : bool :=
  match reader with
  | Primitive rkind =>
      match writer with
      | Primitive wkind => String.eqb wkind rkind || widens wkind rkind
      | _ => false
      end
  | Record _ rfields =>
      match writer with
      | Record _ wfields =>
          forallb
            (fun rfield =>
               match rfield with
               | Field rname rtype rrequired rdefault =>
                   negb rrequired
                   || existsb
                        (fun wfield =>
                           match wfield with
                           | Field wname wtype _ _ =>
                               String.eqb wname rname && canRead wtype rtype
                           | _ => false
                           end)
                        wfields
                   || bool_decide (is_Some rdefault)
               | _ => true
               end)
            rfields
      | _ => false
      end
  | Field _ rtype _ _ =>
      match writer with
      | Field _ wtype _ _ => canRead wtype rtype
      | _ => false
      end
  | Array relement =>
      match writer with
      | Array welement => canRead welement relement
      | _ => false
      end
  | Map rvalue =>
      match writer with
      | Map wvalue => canRead wvalue rvalue
      | _ => false
      end
  | Enum _ rsymbols rdefault =>
      match writer with
      | Enum _ wsymbols _ =>
          forallb (fun s => bool_decide (s ∈ rsymbols)) wsymbols
          || bool_decide (is_Some rdefault)
      | _ => false
      end
  | Union rmembers =>
      forallb (fun wmember => existsb (fun rmember => canRead wmember rmember) rmembers)
        (produced writer)
  end.

(** Modelled from the spec: the two directions in which the modes apply
    [canRead] to a candidate and a history entry. *)
Inductive Predicate := Backward | Forward.

(** Modelled from the spec: the predicates of the modes, missing with the
    engine: BACKWARD is [canRead(candidate, entry)] and FORWARD is
    [canRead(entry, candidate)]. *)
Definition holds (p : Predicate) (candidate entry : SchemaNode) : bool :=
  match p with
  | Backward => canRead candidate entry
  | Forward => canRead entry candidate
  end.

(** Modelled from the spec: which predicates a mode requires, in the order
    they are evaluated; missing with the engine. *)
Definition predicates (mode : CompatibilityMode) : list Predicate :=
  match mode with
  | BACKWARD | BACKWARD_TRANSITIVE => [Backward]
  | FORWARD | FORWARD_TRANSITIVE => [Forward]
  | FULL | FULL_TRANSITIVE => [Backward; Forward]
  | NONE => []
  end.

(** Modelled from the spec: the modes that check every entry of the
    history. *)
Definition transitive (mode : CompatibilityMode) : bool :=
  match mode with
  | BACKWARD_TRANSITIVE | FORWARD_TRANSITIVE | FULL_TRANSITIVE => true
  | _ => false
  end.

(** Modelled from the spec: a reason of incompatibility, missing with the
    engine: the predicate that failed and the version it failed against.
    Versions are numbered from 1, the oldest entry of the history first. *)
Record Reason := {
  failed : Predicate;
  against : nat;
}.

(** Modelled from the spec: [CompatibilityVerdict]. *)
Record CompatibilityVerdict := {
  compatible : bool;
  incompatibilities : list Reason;
  checkedAgainstVersions : list nat;
}.

(** Modelled from the spec: the reasons for one entry, missing with the
    engine: one for every predicate of [ps] that fails against it. *)
Definition failures (ps : list Predicate) (candidate : SchemaNode)
    (version : nat) (entry : SchemaNode) : list Reason :=
  (fun p => {| failed := p; against := version |})
    <$> List.filter (fun p => negb (holds p candidate entry)) ps.

(** Modelled from the spec: the evaluation of a transitive mode, missing
    with the engine: the entries oldest first, starting at [version], and
    for each the predicates in order, stopping at the first predicate that
    fails. It returns the reason, if any, and the versions checked. *)
Fixpoint check_all (ps : list Predicate) (candidate : SchemaNode)
    (version : nat) (history : list SchemaNode) : list Reason * list nat :=
  match history with
  | [] => ([], [])
  | entry :: newer =>
      match failures ps candidate version entry with
      | [] =>
          let (reasons, checked) := check_all ps candidate (S version) newer in
          (reasons, version :: checked)
      | reason :: _ => ([reason], [version])
      end
  end.

(** Modelled from the spec: [checkCompatibility(candidate, history, mode)]
    of the compatibility engine, which is missing. NONE is always
    compatible and checks nothing; BACKWARD, FORWARD and FULL check the
    most recent entry and report every predicate that fails; the
    transitive modes check every entry, oldest first. *)
Definition checkCompatibility (candidate : SchemaNode) (history : list SchemaNode)
    (mode : CompatibilityMode) : CompatibilityVerdict :=
  match mode with
  | NONE => {| compatible := true; incompatibilities := []; checkedAgainstVersions := [] |}
  | BACKWARD | FORWARD | FULL =>
      match last history with
      | None =>
          {| compatible := true; incompatibilities := []; checkedAgainstVersions := [] |}
      | Some mostRecent =>
          let reasons := failures (predicates mode) candidate (length history) mostRecent in
          {| compatible := bool_decide (reasons = []);
             incompatibilities := reasons;
             checkedAgainstVersions := [length history] |}
      end
  | BACKWARD_TRANSITIVE | FORWARD_TRANSITIVE | FULL_TRANSITIVE =>
      let (reasons, checked) := check_all (predicates mode) candidate 1 history in
      {| compatible := bool_decide (reasons = []);
         incompatibilities := reasons;
         checkedAgainstVersions := checked |}
  end.

(** Modelled from the spec: [SchemaDocument]. *)
Record SchemaDocument := {
  raw : string;
  format : SchemaFormat;
  namespace : string;
  name : string;
}.

(** Modelled from the spec: the errors of the external operation
    [CheckCompatibility], with the [ParseError] of the format parsers. *)
Inductive CheckError :=
  | InsufficientHistoryError
  | FormatMismatchError
  | ParseError (document : SchemaDocument).

(** Modelled from the spec: the format parsers [parse(raw, format)], which
    are missing; [None] stands for a [ParseError]. *)
Variable parse : string -> SchemaFormat -> option SchemaNode.

(** Modelled from the spec: parsing a document at its declared format. *)
Definition parse_document (d : SchemaDocument) : CheckError + SchemaNode :=
  match parse (raw d) (format d) with
  | Some node => inr node
  | None => inl (ParseError d)
  end.

(** Modelled from the spec: parsing the prior versions, oldest first, up
    to the first that fails. *)
Fixpoint parse_documents (ds : list SchemaDocument) : CheckError + list SchemaNode :=
  match ds with
  | [] => inr []
  | d :: ds' =>
      match parse_document d with
      | inl e => inl e
      | inr node =>
          match parse_documents ds' with
          | inl e => inl e
          | inr nodes => inr (node :: nodes)
          end
      end
  end.

(** Modelled from the spec: the external operation
    [CheckCompatibility(candidateDocument, priorVersions, mode)], which is
    missing. The two usage errors depend on the declared formats and on
    the length of the history only and are raised before any document is
    parsed or compared. *)
Definition CheckCompatibility (candidateDocument : SchemaDocument)
    (priorVersions : list SchemaDocument) (mode : CompatibilityMode)
    : CheckError + CompatibilityVerdict :=
  if bool_decide (priorVersions = [] ∧ mode ≠ NONE) then inl InsufficientHistoryError
  else if existsb (fun prior => bool_decide (format prior ≠ format candidateDocument))
            priorVersions
  then inl FormatMismatchError
  else
    match parse_document candidateDocument, parse_documents priorVersions with
    | inl e, _ => inl e
    | _, inl e => inl e
    | inr candidate, inr history => inr (checkCompatibility candidate history mode)
    end.

End CanRead.

End Engine.

(** ** Predicates in which the properties are stated *)

Module Props.

Import Axios Client.



(** The outcome of an attempt is final whatever number of retries is left:
    it is a success, a rejection with something else than an axios error,
    or an axios error that does not meet [retryCondition]. *)
Definition final {Obj} (isNetworkOrIdempotentRequestError : AxiosError.t -> bool)
    (settled : Settled Obj) : bool :=
  match settled with
  | Rejected (ThrownAxios error) =>
      negb (retryCondition isNetworkOrIdempotentRequestError error)
  | _ => true
  end.

(** The keys of a cache, most recently used first. *)
Definition keys {Obj} (c : list (Entry Obj)) : list string := key <$> c.

Import Engine.

(** [B] is the record [A] with one more field, which has a default value
    and whose name no field of [A] has. *)
Definition adds_field_with_default (A B : SchemaNode) : Prop :=
  ∃ rname before after fname ftype frequired fdefault,
    A = Record rname (before ++ after)
    ∧ B = Record rname (before ++ Field fname ftype frequired (Some fdefault) :: after)
    ∧ ∀ n t r d, Field n t r d ∈ (before ++ after)%list → n ≠ fname.

(** Every predicate of the mode holds between the candidate and the
    entry. *)
Definition satisfies (widens : string -> string -> bool) (mode : Types.CompatibilityMode)
    (candidate entry : SchemaNode) : bool :=
  forallb (fun p => holds widens p candidate entry) (predicates mode).

(** The first predicate of the mode that fails between the candidate and
    the entry. *)
Definition first_failing (widens : string -> string -> bool)
    (mode : Types.CompatibilityMode) (candidate entry : SchemaNode) : option Predicate :=
  find (fun p => negb (holds widens p candidate entry)) (predicates mode).

End Props.

(** ** Concrete inputs of the examples *)

Module Examples.

Import Axios Client.

(** A configuration that sets none of the optional properties. *)
Definition defaults : ClientConfig :=
  {| baseURL := "http://localhost:8080";
     apiKey := None;
     timeout := None;
     maxRetries := None;
     cacheMaxSize := None;
     cacheTTL := None |}.

(** The axios error for a response to a POST with the given status and
    body. *)
Definition rejection (status : Z) (data : option Data.t) : AxiosError.t :=
  {| AxiosError.message := "Request failed with status code " ++ pretty status;
     AxiosError.code := Some "ERR_BAD_REQUEST";
     AxiosError.method := Some "post";
     AxiosError.response := Some {| Response.status := status; Response.data := data |} |}.

(** A 422 response that lists two validation errors. *)
Definition unprocessable : AxiosError.t :=
  rejection 422
    (Some {| Data.error := None;
             Data.message := Some "Validation failed";
             Data.errors := Some ["name is required"; "type is unknown"] |}).

(** A 409 response whose list of errors is empty. *)
Definition conflict_without_reasons : AxiosError.t :=
  rejection 409
    (Some {| Data.error := None;
             Data.message := Some "Schema is incompatible";
             Data.errors := Some [] |}).

(** A 409 response without a list of errors. *)
Definition conflict_with_message : AxiosError.t :=
  rejection 409
    (Some {| Data.error := None;
             Data.message := Some "Schema is incompatible";
             Data.errors := None |}).

(** A 429 response without a body. *)
Definition rate_limited : AxiosError.t := rejection 429 None.

(** A 418 response without a body. *)
Definition teapot : AxiosError.t := rejection 418 None.

(** A server that answers every attempt with the same error. Response
    bodies are kept as their text. *)
Definition always (error : AxiosError.t) : nat -> Request string -> Settled string :=
  fun _ _ => Rejected (ThrownAxios error).

(** A server that answers the first attempt with 429 and every later one
    with success. *)
Definition busy_once : nat -> Request string -> Settled string :=
  fun n _ =>
    match n with
    | O => Rejected (ThrownAxios rate_limited)
    | S _ => Fulfilled "{}"
    end.

(** A server that answers every attempt with success. *)
Definition ok : nat -> Request string -> Settled string :=
  fun _ _ => Fulfilled "{}".

(** A cache with two entries, stamped at clock readings 10 and 0. *)
Definition two_entries : State string :=
  {| cache := [ {| key := "billing:invoice:2"; value := "{2}"; start := 10 |};
                {| key := "billing:invoice:1"; value := "{1}"; start := 0 |} ];
     log := [] |}.

Import Engine.

(** A record with the required fields [name] and [email]. *)
Definition user_v1 : SchemaNode :=
  Record "User"
    [ Field "name" (Primitive "string") true None;
      Field "email" (Primitive "string") true None ].

(** A record with the required field [name] only. *)
Definition user_v2 : SchemaNode :=
  Record "User" [ Field "name" (Primitive "string") true None ].

(** [user_v2] with one more field, [nickname], which has a default. *)
Definition user_v3 : SchemaNode :=
  Record "User"
    [ Field "name" (Primitive "string") true None;
      Field "nickname" (Primitive "string") false (Some "null") ].

(** Two documents of different formats. *)
Definition avro_document : SchemaDocument :=
  {| raw := "{}"; format := Types.AVRO; namespace := "billing"; name := "invoice" |}.

Definition protobuf_document : SchemaDocument :=
  {| raw := "message Invoice {}"; format := Types.PROTOBUF;
     namespace := "billing"; name := "invoice" |}.

(** A parser that accepts every document as the same record. *)
Definition parse_user : string -> Types.SchemaFormat -> option SchemaNode :=
  fun _ _ => Some user_v2.

End Examples.

(** ** index.js *)

Module Index.

(** The error classes that the package exports, in the order of the
    compiled module; next to them it exports [SchemaRegistryClient]. *)
Definition exports : list Errors.Class.t :=
  [ Errors.Class.SchemaRegistryError;
    Errors.Class.SchemaNotFoundError;
    Errors.Class.SchemaValidationError;
    Errors.Class.IncompatibleSchemaError;
    Errors.Class.AuthenticationError;
    Errors.Class.RateLimitError ].

End Index.

(** ** Further predicates and inputs *)

Module Scenarios.

Import Axios Client.

(** The calls whose operation reads or writes the cache. *)
Definition uses_cache {Obj} (call : Call (Obj := Obj)) : bool :=
  match call with
  | CallGetSchema _ _ _ _ _ | CallDeleteSchema _ _ _ | CallClearCache => true
  | _ => false
  end.

(** The string contains no colon. *)
Fixpoint colon_free (s : string) : bool :=
  match s with
  | EmptyString => true
  | String a s' => negb (String.eqb (String a "") ":") && colon_free s'
  end.

(** [response?.data?.errors] of an axios error. *)
Definition listed_errors (axiosError : AxiosError.t) : option (list string) :=
  (AxiosError.response axiosError ≫= Response.data) ≫= Data.errors.

(** [response?.data?.message] and [response?.data?.error]. *)
Definition data_message (axiosError : AxiosError.t) : option string :=
  (AxiosError.response axiosError ≫= Response.data) ≫= Data.message.

Definition data_error (axiosError : AxiosError.t) : option string :=
  (AxiosError.response axiosError ≫= Response.data) ≫= Data.error.

(** A 403 response without a body. *)
Definition forbidden : AxiosError.t := Examples.rejection 403 None.

(** A configuration with a negative number of retries. *)
Definition no_retries : ClientConfig :=
  {| baseURL := "http://localhost:8080";
     apiKey := None;
     timeout := None;
     maxRetries := Some (-1)%Z;
     cacheMaxSize := None;
     cacheTTL := None |}.

(** A configuration whose cache holds one entry. *)
Definition one_entry : ClientConfig :=
  {| baseURL := "http://localhost:8080";
     apiKey := None;
     timeout := None;
     maxRetries := None;
     cacheMaxSize := Some 1%Z;
     cacheTTL := None |}.

(** A cache that holds version 1 of a schema. *)
Definition one_cached : State string :=
  {| cache := [ {| key := "billing:invoice:1"; value := "{1}"; start := 0 |} ];
     log := [] |}.

(** The request of [registerSchema] for the schema [{}]. *)
Definition register_request : Request string :=
  {| method := POST; url := "/schemas"; body := SchemaBody "{}" |}.

End Scenarios.

(** * Properties *)

Import Axios Client Props.

(** ** The enums of types.js *)

(** C7. [CompatibilityMode] has exactly seven members: the enum object has
    the seven property names BACKWARD, FORWARD, FULL, BACKWARD_TRANSITIVE,
    FORWARD_TRANSITIVE, FULL_TRANSITIVE and NONE and no other, each member
    is stored under its name, and the members are seven distinct values that
    exhaust the type. *)
Theorem CompatibilityMode_has_exactly_seven_members :
  dom Types.CompatibilityMode_object
    = {[ "BACKWARD"; "FORWARD"; "FULL"; "BACKWARD_TRANSITIVE";
         "FORWARD_TRANSITIVE"; "FULL_TRANSITIVE"; "NONE" ]}
  ∧ size Types.CompatibilityMode_object = 7
  ∧ (∀ m, Types.CompatibilityMode_object !! Types.mode_key m = Some (Types.mode_value m))
  ∧ (∀ m, m ∈ Types.all_modes)
  ∧ NoDup Types.all_modes
  ∧ length Types.all_modes = 7.
Proof.
  split_and!.
  - unfold Types.CompatibilityMode_object, Js.assign.
    rewrite !dom_insert_L. set_solver.
  - by vm_compute.
  - by intros [].
  - intros []; compute_done.
  - compute_done.
  - reflexivity.
Qed.

(** ** handleError *)

(** The [switch] of [handleError] as a chain of comparisons. *)
Lemma handleError_switch (axiosError : AxiosError.t) :
  handleError (ThrownAxios axiosError) =
    let message := response_message axiosError in
    let errors := response_errors axiosError in
    match response_status axiosError with
    | Some s =>
        if ((s =? 401) || (s =? 403))%Z then Errors.AuthenticationError (Some message)
        else if (s =? 404)%Z then Errors.SchemaNotFoundError message
        else if (s =? 409)%Z then Errors.IncompatibleSchemaError errors
        else if (s =? 422)%Z then Errors.SchemaValidationError errors
        else if (s =? 429)%Z then Errors.RateLimitError None
        else Errors.SchemaRegistryError message (Some s)
    | None => Errors.SchemaRegistryError message None
    end.
Proof.
  unfold handleError. cbv zeta.
  destruct (response_status axiosError) as [[|p|p]|]; try reflexivity.
  repeat first [reflexivity | destruct p as [p|p|]].
Qed.

(** The class of the error that [handleError] builds for a status code. *)
Lemma handleError_proto_of_status (axiosError : AxiosError.t) (s : Z) :
  response_status axiosError = Some s →
  Errors.proto (handleError (ThrownAxios axiosError)) =
    if ((s =? 401) || (s =? 403))%Z then Errors.Class.AuthenticationError
    else if (s =? 404)%Z then Errors.Class.SchemaNotFoundError
    else if (s =? 409)%Z then Errors.Class.IncompatibleSchemaError
    else if (s =? 422)%Z then Errors.Class.SchemaValidationError
    else if (s =? 429)%Z then Errors.Class.RateLimitError
    else Errors.Class.SchemaRegistryError.
Proof.
  intros Hs. rewrite handleError_switch, Hs. cbv zeta.
  repeat case_match; reflexivity.
Qed.

(** C8. For an error that carries a response, the class of the error that
    [handleError] returns is a function of the status code alone: 401 and
    403 give [AuthenticationError], 404 [SchemaNotFoundError], 409
    [IncompatibleSchemaError], 422 [SchemaValidationError] with
    [statusCode] 400, 429 [RateLimitError], and any other status the base
    [SchemaRegistryError] with that status as [statusCode]. *)
Theorem handleError_class_is_determined_by_status
    (axiosError : AxiosError.t) (response : Response.t) :
  AxiosError.response axiosError = Some response →
  let status := Response.status response in
  let error := handleError (ThrownAxios axiosError) in
  (status = 401%Z ∨ status = 403%Z →
     Errors.proto error = Errors.Class.AuthenticationError)
  ∧ (status = 404%Z → Errors.proto error = Errors.Class.SchemaNotFoundError)
  ∧ (status = 409%Z → Errors.proto error = Errors.Class.IncompatibleSchemaError)
  ∧ (status = 422%Z →
       Errors.proto error = Errors.Class.SchemaValidationError
       ∧ Errors.statusCode error = Some 400%Z)
  ∧ (status = 429%Z → Errors.proto error = Errors.Class.RateLimitError)
  ∧ (status ∉ [401; 403; 404; 409; 422; 429]%Z →
       Errors.proto error = Errors.Class.SchemaRegistryError
       ∧ Errors.statusCode error = Some status)
  ∧ (∀ axiosError' response',
       AxiosError.response axiosError' = Some response' →
       Response.status response' = status →
       Errors.proto (handleError (ThrownAxios axiosError')) = Errors.proto error).
Proof.
  intros Hr status error.
  assert (Hs : response_status axiosError = Some status)
    by (unfold response_status; rewrite Hr; reflexivity).
  subst error. split_and!.
  - intros [H|H]; rewrite handleError_switch, Hs, H; reflexivity.
  - intros H; rewrite handleError_switch, Hs, H; reflexivity.
  - intros H; rewrite handleError_switch, Hs, H; reflexivity.
  - intros H; rewrite handleError_switch, Hs, H; split; reflexivity.
  - intros H; rewrite handleError_switch, Hs, H; reflexivity.
  - intros H. rewrite handleError_switch, Hs. cbv zeta.
    rewrite !not_elem_of_cons in H. destruct H as (?&?&?&?&?&?&_).
    repeat (rewrite (proj2 (Z.eqb_neq _ _)) by assumption).
    split; reflexivity.
  - intros axiosError' response' Hr' Hst.
    rewrite (handleError_proto_of_status axiosError status) by exact Hs.
    apply handleError_proto_of_status.
    unfold response_status. rewrite Hr'. simpl. by rewrite Hst.
Qed.

(** The theorem at a 422 response: the error is a [SchemaValidationError]
    whose [statusCode] is 400. *)
Lemma handleError_class_witness :
  AxiosError.response Examples.unprocessable
    = Some {| Response.status := 422;
              Response.data :=
                Some {| Data.error := None;
                        Data.message := Some "Validation failed";
                        Data.errors := Some ["name is required"; "type is unknown"] |} |}
  ∧ Errors.proto (handleError (ThrownAxios Examples.unprocessable))
      = Errors.Class.SchemaValidationError
  ∧ Errors.statusCode (handleError (ThrownAxios Examples.unprocessable)) = Some 400%Z.
Proof.
  split; [reflexivity|].
  exact (proj1 (proj2 (proj2 (proj2
    (handleError_class_is_determined_by_status Examples.unprocessable _ eq_refl))))
    eq_refl).
Defined.


Section Throws.

Context {Obj : Type}.
Variable isNetworkOrIdempotentRequestError : AxiosError.t -> bool.
Variable config : ClientConfig.
Variable net : nat -> Request Obj -> Settled Obj.

Abbreviation http := (http isNetworkOrIdempotentRequestError config net).
Abbreviation try_request := (try_request isNetworkOrIdempotentRequestError config net).
Abbreviation run := (run isNetworkOrIdempotentRequestError config net).

(** The shared [try]/[catch] returns the body of the response or throws
    what [handleError] makes of the rejection. *)
Lemma try_request_completes (request : Request Obj) (st : State Obj) :
  try_request request st =
    match http request st with
    | (Fulfilled data, st') => (Returned data, st')
    | (Rejected error, st') => (Threw (ThrownSdk (handleError error)), st')
    end.
Proof. reflexivity. Qed.



End Throws.

(** *** On response bodies as they arrive *)









(** The errors carried for a 409 response are the list of the response, in
    full and in its order, when the body has one, and the message alone
    otherwise. *)
Lemma handleError_409_incompatibilities (axiosError : AxiosError.t) :
  response_status axiosError = Some 409%Z →
  handleError (ThrownAxios axiosError)
    = Errors.IncompatibleSchemaError (response_errors axiosError)
  ∧ Errors.incompatibilities (handleError (ThrownAxios axiosError))
    = Some (response_errors axiosError).
Proof. intros Hs. rewrite handleError_switch, Hs. split; reflexivity. Qed.

Lemma response_errors_listed (axiosError : AxiosError.t) response data errors :
  AxiosError.response axiosError = Some response →
  Response.data response = Some data →
  Data.errors data = Some errors →
  response_errors axiosError = errors.
Proof.
  intros Hr Hd He. unfold response_errors. rewrite Hr. simpl. rewrite Hd. simpl.
  rewrite He. reflexivity.
Qed.

Lemma response_errors_fallback (axiosError : AxiosError.t) :
  (AxiosError.response axiosError ≫= Response.data) ≫= Data.errors = None →
  response_errors axiosError = [response_message axiosError].
Proof. intros H. unfold response_errors. rewrite H. reflexivity. Qed.

(** C2. A 409 response whose body carries an empty [errors] array: the
    empty array is truthy, so the fallback to the message is not taken and
    the [IncompatibleSchemaError] that is thrown carries no reason at all,
    while the same response without the array carries the message as its
    reason. *)
Theorem incompatible_error_without_reasons :
  handleError (ThrownAxios Examples.conflict_without_reasons)
    = Errors.IncompatibleSchemaError []
  ∧ Errors.incompatibilities (handleError (ThrownAxios Examples.conflict_without_reasons))
    = Some []
  ∧ Errors.incompatibilities (handleError (ThrownAxios Examples.conflict_with_message))
    = Some ["Schema is incompatible"]
  ∧ (checkCompatibility isNetworkOrIdempotentRequestError Examples.defaults
       (Examples.always Examples.conflict_without_reasons)
       "billing" "invoice" "{}" new_client).1
    = Threw (ThrownSdk (Errors.IncompatibleSchemaError [])).
Proof. split_and!; reflexivity. Qed.

(** ** Validation errors *)

(** C1, counterexample. The server answers a [validate] request with
    status 422 and two validation errors: the operation does not return
    them, it throws a [SchemaValidationError] that carries both. So it is
    not the case that no operation throws an error carrying a list of
    errors. *)
Lemma validate_throws_the_validation_errors :
  (validate isNetworkOrIdempotentRequestError Examples.defaults
     (Examples.always Examples.unprocessable)
     "billing" "invoice" "1" "{}" new_client).1
    = Threw (ThrownSdk
        (Errors.SchemaValidationError ["name is required"; "type is unknown"]))
  ∧ Errors.errors (Errors.SchemaValidationError ["name is required"; "type is unknown"])
    = Some ["name is required"; "type is unknown"]
  ∧ ¬ (∀ net (call : Call) (st : State string) error,
         (run isNetworkOrIdempotentRequestError Examples.defaults net call st).1
           = Threw (ThrownSdk error) →
         Errors.errors error = None).
Proof.
  split_and!; [reflexivity | reflexivity |].
  intros H.
  specialize (H (Examples.always Examples.unprocessable)
                (CallValidate "billing" "invoice" "1" "{}") new_client
                (Errors.SchemaValidationError ["name is required"; "type is unknown"])
                eq_refl).
  discriminate H.
Qed.

(** C1, amended. When the request of [validate] succeeds, the report in
    the response is returned to the caller as a value; when it is rejected,
    [validate] throws what [handleError] makes of the rejection, and for a
    response with status 422 that is a [SchemaValidationError] carrying the
    list of errors of the response, or its message as the only entry when
    the body has no list. *)
Theorem validation_errors_are_returned_or_thrown {Obj : Type}
    (isNetworkOrIdempotentRequestError : AxiosError.t -> bool)
    (config : ClientConfig) (net : nat -> Request Obj -> Settled Obj)
    (namespace name version : string) (data : Obj)
    (st st' : State Obj) (settled : Settled Obj) :
  http isNetworkOrIdempotentRequestError config net
    {| method := POST;
       url := "/schemas/" ++ namespace ++ "/" ++ name ++ "/" ++ version ++ "/validate";
       body := DataBody data |} st = (settled, st') →
  match settled with
  | Fulfilled report =>
      validate isNetworkOrIdempotentRequestError config net
        namespace name version data st = (Returned report, st')
  | Rejected error =>
      validate isNetworkOrIdempotentRequestError config net
        namespace name version data st = (Threw (ThrownSdk (handleError error)), st')
      ∧ ∀ axiosError,
          error = ThrownAxios axiosError →
          response_status axiosError = Some 422%Z →
          handleError error = Errors.SchemaValidationError (response_errors axiosError)
          ∧ Errors.errors (handleError error) = Some (response_errors axiosError)
  end.
Proof.
  intros Hhttp. unfold validate, try_request. rewrite Hhttp.
  destruct settled as [report|error]; [reflexivity|].
  split; [reflexivity|].
  intros axiosError -> Hs. rewrite handleError_switch, Hs. split; reflexivity.
Qed.

(** The theorem at a server that answers 422 with two errors. *)
Lemma validation_errors_witness :
  (validate isNetworkOrIdempotentRequestError Examples.defaults
     (Examples.always Examples.unprocessable)
     "billing" "invoice" "1" "{}" new_client).1
    = Threw (ThrownSdk (handleError (ThrownAxios Examples.unprocessable)))
  ∧ Errors.errors (handleError (ThrownAxios Examples.unprocessable))
    = Some ["name is required"; "type is unknown"].
Proof.
  pose proof (validation_errors_are_returned_or_thrown
                isNetworkOrIdempotentRequestError Examples.defaults
                (Examples.always Examples.unprocessable)
                "billing" "invoice" "1" "{}" new_client _ _ eq_refl) as [Hv He].
  split.
  - rewrite Hv. reflexivity.
  - exact (proj2 (He _ eq_refl eq_refl)).
Defined.

(** ** Retries *)

(** [config.maxRetries || 3] is never zero: a configured 0 is falsy and
    replaced by 3. *)
Lemma retries_nonzero (config : ClientConfig) : retries config ≠ 0%Z.
Proof.
  unfold retries, Js.or_number.
  destruct (maxRetries config) as [n|]; [|lia].
  destruct (Z.eqb_spec n 0); lia.
Qed.

Section Retries.

Context {Obj : Type}.
Variable isNetworkOrIdempotentRequestError : AxiosError.t -> bool.
Variable config : ClientConfig.
Variable net : nat -> Request Obj -> Settled Obj.

Abbreviation send' := (send isNetworkOrIdempotentRequestError net).
Abbreviation http' := (http isNetworkOrIdempotentRequestError config net).
Abbreviation run' := (run isNetworkOrIdempotentRequestError config net).

(** A final outcome ends the request at once. *)
Lemma send_final (left : nat) (request : Request Obj) (attempts : list (Request Obj)) :
  final isNetworkOrIdempotentRequestError (net (length attempts) request) = true →
  send' left request attempts = (net (length attempts) request, request :: attempts).
Proof.
  intros Hfinal. destruct left; simpl;
    destruct (net (length attempts) request) as [data|[error| | |]]; try reflexivity;
    simpl in Hfinal; apply negb_true_iff in Hfinal; rewrite ?Hfinal; reflexivity.
Qed.

(** An axios error that meets the retry condition is retried while a retry
    is left. *)
Lemma send_retry (left : nat) (request : Request Obj) (attempts : list (Request Obj))
    (error : AxiosError.t) :
  net (length attempts) request = Rejected (ThrownAxios error) →
  retryCondition isNetworkOrIdempotentRequestError error = true →
  send' (S left) request attempts = send' left request (request :: attempts).
Proof. intros Hnet Hretry. simpl. rewrite Hnet, Hretry. reflexivity. Qed.

(** A request makes at least one attempt and at most one more than the
    retries left. *)
Lemma send_attempts (left : nat) (request : Request Obj) (attempts : list (Request Obj)) :
  (length attempts < length (send' left request attempts).2
   ∧ length (send' left request attempts).2 ≤ length attempts + 1 + left)%nat.
Proof.
  revert attempts. induction left as [|left IH]; intros attempts.
  - simpl. destruct (net (length attempts) request) as [data|[error| | |]];
      simpl; lia.
  - simpl. destruct (net (length attempts) request) as [data|[error| | |]];
      simpl; try lia.
    destruct (retryCondition _ error); simpl; [|lia].
    specialize (IH (request :: attempts)). simpl in IH. lia.
Qed.

Lemma http_cache (request : Request Obj) (st : State Obj) :
  cache (http' request st).2 = cache st.
Proof. unfold http. destruct (send _ _ _ _ _); reflexivity. Qed.

Lemma http_attempts (request : Request Obj) (st : State Obj) :
  (length (log st) < length (log (http' request st).2)
   ∧ length (log (http' request st).2) ≤ length (log st) + 1 + Z.to_nat (retries config))%nat.
Proof.
  pose proof (send_attempts (Z.to_nat (retries config)) request (log st)) as H.
  unfold http. destruct (send _ _ _ _ _); exact H.
Qed.

Lemma try_request_attempts (request : Request Obj) (st : State Obj) :
  (length (log st)
     ≤ length (log (try_request isNetworkOrIdempotentRequestError config net request st).2)
   ∧ length (log (try_request isNetworkOrIdempotentRequestError config net request st).2)
     ≤ length (log st) + 1 + Z.to_nat (retries config))%nat.
Proof.
  pose proof (http_attempts request st) as H. unfold try_request.
  destruct (http' request st) as [[data|error] st']; simpl in *; lia.
Qed.

Lemma outcome_state {A} (r : Completion A * State Obj) : (outcome r).2 = r.2.
Proof. destruct r as [[a|e] st]; reflexivity. Qed.

(** A call makes at most one request. *)
Lemma run_attempts (call : Call) (st : State Obj) :
  (length (log st) ≤ length (log (run' call st).2)
   ∧ length (log (run' call st).2) ≤ length (log st) + 1 + Z.to_nat (retries config))%nat.
Proof.
  destruct call; simpl; rewrite ?outcome_state; try apply try_request_attempts.
  - unfold getSchema.
    destruct (cache_get _ _ _ _) as [[cached|] c]; simpl; [lia|].
    match goal with |- context [http' ?r ?s] =>
      pose proof (http_attempts r s) as H; destruct (http' r s) as [[data|error] st']
    end; simpl in *; lia.
  - unfold deleteSchema.
    match goal with |- context [http' ?r ?s] =>
      pose proof (http_attempts r s) as H; destruct (http' r s) as [[data|error] st']
    end; simpl in *; lia.
  - lia.
Qed.

End Retries.

Section RetryFacts.

Context {Obj : Type}.
Variable isNetworkOrIdempotentRequestError : AxiosError.t -> bool.
Variable config : ClientConfig.
Variable net : nat -> Request Obj -> Settled Obj.

Abbreviation retry := (retryCondition isNetworkOrIdempotentRequestError).
Abbreviation send_ := (send isNetworkOrIdempotentRequestError net).
Abbreviation http_ := (http isNetworkOrIdempotentRequestError config net).
Abbreviation run_ := (run isNetworkOrIdempotentRequestError config net).

Lemma replicate_cons_middle (k : nat) (request : Request Obj)
    (attempts : list (Request Obj)) :
  (replicate k request ++ request :: attempts
   = replicate (S k) request ++ attempts)%list.
Proof.
  change (request :: attempts) with ([request] ++ attempts)%list.
  rewrite app_assoc, <- replicate_cons_app. reflexivity.
Qed.

(** With no retry left the outcome of the attempt is surfaced. *)
Lemma send_last (request : Request Obj) attempts :
  send_ 0 request attempts = (net (length attempts) request, request :: attempts).
Proof.
  simpl. destruct (net (length attempts) request) as [data|[error| | |]]; reflexivity.
Qed.

(** Every request ends with the outcome of its last attempt, and all its
    attempts send the same request. *)
Lemma send_outcome (left : nat) (request : Request Obj) attempts :
  ∃ k, (1 ≤ k ≤ S left)%nat
       ∧ send_ left request attempts
         = (net (length attempts + (k - 1)) request,
            (replicate k request ++ attempts)%list).
Proof.
  revert attempts. induction left as [|left IH]; intros attempts.
  - exists 1%nat. split; [lia|]. rewrite send_last, Nat.add_0_r. reflexivity.
  - destruct (net (length attempts) request) as [data|[error| | |]] eqn:Hnet;
      try (exists 1%nat; split; [lia|]; simpl; rewrite Hnet, Nat.add_0_r, ?Hnet;
           reflexivity).
    destruct (retry error) eqn:Hretry.
    + destruct (IH (request :: attempts)) as (k & Hk & Hsend).
      exists (S k). split; [lia|].
      rewrite (send_retry _ _ left request attempts error Hnet Hretry), Hsend.
      rewrite replicate_cons_middle. simpl length.
      replace (S (length attempts) + (k - 1))%nat
        with (length attempts + (S k - 1))%nat by lia.
      reflexivity.
    + exists 1%nat. split; [lia|]. simpl. rewrite Hnet, Hretry, Nat.add_0_r, Hnet.
      reflexivity.
Qed.

End RetryFacts.

(** C3, counterexample. With the default configuration a server that
    answers every attempt with 429 is asked four times before
    [registerSchema] throws the [RateLimitError], and when only the first
    attempt is answered with 429 the error is never surfaced: the second
    attempt succeeds and the operation returns. *)
Lemma rate_limit_is_retried :
  (registerSchema isNetworkOrIdempotentRequestError Examples.defaults
     (Examples.always Examples.rate_limited) "{}" new_client).1
    = Threw (ThrownSdk (Errors.RateLimitError None))
  ∧ length (log (registerSchema isNetworkOrIdempotentRequestError Examples.defaults
                   (Examples.always Examples.rate_limited) "{}" new_client).2) = 4
  ∧ (registerSchema isNetworkOrIdempotentRequestError Examples.defaults
       Examples.busy_once "{}" new_client).1 = Returned "{}"
  ∧ length (log (registerSchema isNetworkOrIdempotentRequestError Examples.defaults
                   Examples.busy_once "{}" new_client).2) = 2.
Proof. split_and!; reflexivity. Qed.

(** Every response with status 429 or with a status of 500 and above meets
    the retry condition of the constructor, whatever the retry helper
    answers and whatever the method of the request. *)
Lemma retryCondition_429_5xx
    (isNetworkOrIdempotentRequestError : AxiosError.t -> bool)
    (error : AxiosError.t) (response : Response.t) :
  AxiosError.response error = Some response →
  (Response.status response = 429 ∨ 500 ≤ Response.status response)%Z →
  retryCondition isNetworkOrIdempotentRequestError error = true.
Proof.
  intros Hresponse Hstatus.
  unfold retryCondition, response_status. rewrite Hresponse. simpl.
  destruct Hstatus as [->|Hstatus].
  - rewrite orb_true_iff. left. rewrite orb_true_iff. right. reflexivity.
  - rewrite orb_true_iff. right. unfold Js.or_number.
    destruct (Z.eqb_spec (Response.status response) 0); lia.
Qed.

(** C3, amended. The client retries by configuration: the constructor
    installs axios-retry with [config.maxRetries || 3] retries, a number
    that is never zero, and with a retry condition that every response
    with status 429 or with a status of 500 and above meets, whatever the
    method of the request. A request makes at least one attempt and at most
    one more than the number of retries, all of them with the same request,
    and surfaces the outcome of its last attempt; a call of an operation
    adds at most that many attempts. An outcome that is final (a success,
    a rejection that is no axios error, or an axios error that does not
    meet the retry condition) is surfaced after that single attempt. *)
Theorem errors_surface_after_the_configured_retries {Obj : Type}
    (isNetworkOrIdempotentRequestError : AxiosError.t -> bool)
    (config : ClientConfig) (net : nat -> Request Obj -> Settled Obj) :
  (∀ request st,
     final isNetworkOrIdempotentRequestError (net (length (log st)) request) = true →
     http isNetworkOrIdempotentRequestError config net request st
       = (net (length (log st)) request,
          {| cache := cache st; log := request :: log st |}))
  ∧ (∀ request st,
       ∃ k, (1 ≤ k ≤ 1 + Z.to_nat (retries config))%nat
            ∧ http isNetworkOrIdempotentRequestError config net request st
              = (net (length (log st) + (k - 1)) request,
                 {| cache := cache st;
                    log := (replicate k request ++ log st)%list |}))
  ∧ (∀ call st,
       (length (log (run isNetworkOrIdempotentRequestError config net call st).2)
          ≤ length (log st) + 1 + Z.to_nat (retries config))%nat)
  ∧ retries config ≠ 0%Z
  ∧ (∀ error response,
       AxiosError.response error = Some response →
       (Response.status response = 429 ∨ 500 ≤ Response.status response)%Z →
       retryCondition isNetworkOrIdempotentRequestError error = true).
Proof.
  split_and!.
  - intros request st Hfinal. unfold http.
    rewrite send_final by exact Hfinal. reflexivity.
  - intros request st.
    destruct (send_outcome isNetworkOrIdempotentRequestError net
                (Z.to_nat (retries config)) request (log st)) as (k & Hk & Hsend).
    exists k. split; [lia|]. unfold http. rewrite Hsend. reflexivity.
  - intros. apply run_attempts.
  - apply retries_nonzero.
  - intros error response. apply retryCondition_429_5xx.
Qed.

(** The theorem at a server that answers 418: the error is surfaced after
    one attempt. *)
Lemma single_attempt_witness :
  final isNetworkOrIdempotentRequestError
    (Examples.always Examples.teapot 0
       {| method := POST; url := "/schemas"; body := SchemaBody "{}" |}) = true
  ∧ http isNetworkOrIdempotentRequestError Examples.defaults
      (Examples.always Examples.teapot)
      {| method := POST; url := "/schemas"; body := SchemaBody "{}" |} new_client
    = (Rejected (ThrownAxios Examples.teapot),
       {| cache := [];
          log := [ {| method := POST; url := "/schemas"; body := SchemaBody "{}" |} ] |}).
Proof.
  split; [reflexivity|].
  exact (proj1 (errors_surface_after_the_configured_retries
                  isNetworkOrIdempotentRequestError Examples.defaults
                  (Examples.always Examples.teapot))
               {| method := POST; url := "/schemas"; body := SchemaBody "{}" |}
               new_client eq_refl).
Defined.

(** ** The cache *)

Section CacheFacts.

Context {Obj : Type}.
Implicit Types (c : list (Entry Obj)) (e : Entry Obj) (k : string).

Lemma is_key_true k e : is_key k e = true ↔ key e = k.
Proof. unfold is_key. apply String.eqb_eq. Qed.

Lemma is_key_false k e : is_key k e = false ↔ key e ≠ k.
Proof. unfold is_key. apply String.eqb_neq. Qed.

Lemma cache_peek_key k c e : cache_peek k c = Some e → key e = k.
Proof.
  unfold cache_peek. intros H. apply find_some in H as [_ H].
  by apply is_key_true.
Qed.

(** Deleting a key does not change what is stored under another key. *)
Lemma cache_peek_delete_ne k k' c :
  k' ≠ k → cache_peek k' (cache_delete k c) = cache_peek k' c.
Proof.
  intros Hne. induction c as [|e c IH]; [reflexivity|]. simpl.
  destruct (is_key k e) eqn:Hk; simpl.
  - apply is_key_true in Hk.
    assert (is_key k' e = false) as -> by (apply is_key_false; congruence).
    exact IH.
  - destruct (is_key k' e); [reflexivity | exact IH].
Qed.

Lemma cache_peek_delete_eq k c : cache_peek k (cache_delete k c) = None.
Proof.
  induction c as [|e c IH]; [reflexivity|]. simpl.
  destruct (is_key k e) eqn:Hk; simpl; [exact IH|]. rewrite Hk. exact IH.
Qed.

Lemma cache_delete_comm k k' c :
  cache_delete k' (cache_delete k c) = cache_delete k (cache_delete k' c).
Proof.
  induction c as [|e c IH]; [reflexivity|]. simpl.
  destruct (is_key k e) eqn:Hk, (is_key k' e) eqn:Hk'; simpl;
    rewrite ?Hk, ?Hk'; simpl; congruence.
Qed.

(** The entries that a deletion keeps are those under other keys. *)
Lemma elem_of_cache_delete k c e :
  e ∈ cache_delete k c ↔ e ∈ c ∧ key e ≠ k.
Proof.
  unfold cache_delete. rewrite !list_elem_of_In, filter_In, negb_true_iff, is_key_false.
  reflexivity.
Qed.

Lemma keys_cache_delete k c : k ∉ keys (cache_delete k c).
Proof.
  unfold keys. rewrite list_elem_of_fmap. intros (e & -> & He).
  apply elem_of_cache_delete in He as [_ He]. by apply He.
Qed.

Lemma keys_cache_delete_sublist k c : keys (cache_delete k c) `sublist_of` keys c.
Proof.
  induction c as [|e c IH]; [constructor|]. simpl.
  destruct (is_key k e); simpl; by constructor.
Qed.

Lemma NoDup_cache_delete k c : NoDup (keys c) → NoDup (keys (cache_delete k c)).
Proof. intros H. eapply sublist_NoDup; [exact H | apply keys_cache_delete_sublist]. Qed.

(** With one entry per key, a deletion removes at most one entry. *)
Lemma cache_delete_length k c :
  NoDup (keys c) → (length c ≤ S (length (cache_delete k c)))%nat.
Proof.
  induction c as [|e c IH]; simpl; [lia|]. intros Hnd.
  apply NoDup_cons in Hnd as [Hnotin Hnd].
  destruct (is_key k e) eqn:Hk; simpl; [|specialize (IH Hnd); lia].
  apply is_key_true in Hk.
  assert (cache_delete k c = c) as ->; [|lia].
  unfold cache_delete. apply forallb_filter_id, forallb_forall.
  intros e' He'. apply negb_true_iff, is_key_false. intros Heq.
  apply Hnotin. unfold keys. apply list_elem_of_fmap.
  exists e'. split; [congruence | by apply list_elem_of_In].
Qed.

Lemma NoDup_cache_get ttl now k c :
  NoDup (keys c) → NoDup (keys (cache_get ttl now k c).2).
Proof.
  intros Hnd. unfold cache_get.
  destruct (cache_peek k c) as [e|] eqn:Hpeek; [|exact Hnd].
  destruct (is_stale ttl now e); simpl.
  - by apply NoDup_cache_delete.
  - apply NoDup_cons. split; [|by apply NoDup_cache_delete].
    rewrite (cache_peek_key _ _ _ Hpeek). apply keys_cache_delete.
Qed.

Lemma NoDup_cache_set max now k (v : Obj) c :
  NoDup (keys c) → NoDup (keys (cache_set max now k v c)).
Proof.
  intros Hnd. unfold cache_set, keys. rewrite fmap_take.
  eapply sublist_NoDup; [|apply sublist_take].
  simpl. apply NoDup_cons. split; [apply keys_cache_delete | by apply NoDup_cache_delete].
Qed.

(** A [get] for another key commutes with a deletion. *)
Lemma cache_get_delete_ne ttl now k k' c :
  k' ≠ k →
  cache_get ttl now k' (cache_delete k c)
    = ((cache_get ttl now k' c).1, cache_delete k (cache_get ttl now k' c).2).
Proof.
  intros Hne. unfold cache_get. rewrite cache_peek_delete_ne by exact Hne.
  destruct (cache_peek k' c) as [e|] eqn:Hpeek; [|reflexivity].
  destruct (is_stale ttl now e); simpl.
  - by rewrite cache_delete_comm.
  - assert (is_key k e = false) as ->.
    { apply is_key_false. rewrite (cache_peek_key _ _ _ Hpeek). exact Hne. }
    simpl. by rewrite cache_delete_comm.
Qed.

End CacheFacts.

Section ClientCache.

Context {Obj : Type}.
Variable isNetworkOrIdempotentRequestError : AxiosError.t -> bool.
Variable config : ClientConfig.
Variable net : nat -> Request Obj -> Settled Obj.

(** A successful [deleteSchema] leaves the cache without the entry of its
    key, and changes nothing else in it. *)
Lemma deleteSchema_cache namespace name version (st st' : State Obj) :
  deleteSchema isNetworkOrIdempotentRequestError config net namespace name version st
    = (Returned tt, st') →
  cache st' = cache_delete (cacheKey namespace name version) (cache st).
Proof.
  unfold deleteSchema.
  match goal with |- context [http _ _ _ ?r ?s] =>
    pose proof (http_cache isNetworkOrIdempotentRequestError config net r s) as Hc;
    destruct (http isNetworkOrIdempotentRequestError config net r s) as [[data|error] st1]
  end; [|discriminate].
  intros [= <-]. simpl in *. by rewrite Hc.
Qed.

(** A [getSchema] that finds a fresh entry returns it without a request. *)
Lemma getSchema_cached now later namespace name version (st : State Obj) cached c :
  cache_get (ttl config) now (cacheKey namespace name version) (cache st)
    = (Some cached, c) →
  getSchema isNetworkOrIdempotentRequestError config net
    now later namespace name version st
    = (Returned cached, {| cache := c; log := log st |}).
Proof. intros H. unfold getSchema. rewrite H. reflexivity. Qed.

(** Every call keeps one entry per key. *)
Lemma run_NoDup_keys (call : Call) (st : State Obj) :
  NoDup (keys (cache st)) →
  NoDup (keys (cache (run isNetworkOrIdempotentRequestError config net call st).2)).
Proof.
  intros Hnd.
  assert (Htry : ∀ request,
    NoDup (keys (cache (outcome
      (try_request isNetworkOrIdempotentRequestError config net request st)).2))).
  { intros request. rewrite outcome_state. unfold try_request.
    pose proof (http_cache isNetworkOrIdempotentRequestError config net request st) as Hc.
    destruct (http _ _ _ request st) as [[data|error] st1]; simpl in *; by rewrite Hc. }
  destruct call; simpl; try apply Htry.
  - rewrite outcome_state. unfold getSchema.
    pose proof (NoDup_cache_get (ttl config) now
                  (cacheKey namespace name version) (cache st) Hnd) as Hget.
    destruct (cache_get _ _ _ _) as [[cached|] c]; simpl in *; [exact Hget|].
    match goal with |- context [http _ _ _ ?r ?s] =>
      pose proof (http_cache isNetworkOrIdempotentRequestError config net r s) as Hc;
      destruct (http isNetworkOrIdempotentRequestError config net r s) as [[data|error] st1]
    end; simpl in *; rewrite Hc.
    + by apply NoDup_cache_set.
    + exact Hget.
  - rewrite outcome_state. unfold deleteSchema.
    match goal with |- context [http _ _ _ ?r ?s] =>
      pose proof (http_cache isNetworkOrIdempotentRequestError config net r s) as Hc;
      destruct (http isNetworkOrIdempotentRequestError config net r s) as [[data|error] st1]
    end; simpl in *; rewrite Hc; [by apply NoDup_cache_delete | exact Hnd].
  - constructor.
Qed.

End ClientCache.

(** C9. A successful [deleteSchema] makes the cache the old one without
    the entries keyed [namespace:name:version], of which there is at most
    one in a cache with one entry per key: what is stored under any other
    key is unchanged, and a [getSchema] for another key that the old cache
    would have answered from a fresh entry is still answered from the
    cache, with the same value and without a request. *)
Theorem deleteSchema_leaves_other_entries {Obj : Type}
    (isNetworkOrIdempotentRequestError : AxiosError.t -> bool)
    (config : ClientConfig) (net : nat -> Request Obj -> Settled Obj)
    (namespace name version : string) (st st' : State Obj) :
  deleteSchema isNetworkOrIdempotentRequestError config net namespace name version st
    = (Returned tt, st') →
  cache st' = cache_delete (cacheKey namespace name version) (cache st)
  ∧ (∀ e, e ∈ cache st' ↔ e ∈ cache st ∧ key e ≠ cacheKey namespace name version)
  ∧ (NoDup (keys (cache st)) → (length (cache st) ≤ S (length (cache st')))%nat)
  ∧ (∀ k, k ≠ cacheKey namespace name version →
       cache_peek k (cache st') = cache_peek k (cache st))
  ∧ (∀ now later namespace' name' version' cached c,
       cacheKey namespace' name' version' ≠ cacheKey namespace name version →
       cache_get (ttl config) now (cacheKey namespace' name' version') (cache st)
         = (Some cached, c) →
       ∃ st'',
         getSchema isNetworkOrIdempotentRequestError config net
           now later namespace' name' version' st' = (Returned cached, st'')
         ∧ log st'' = log st').
Proof.
  intros Hdel. apply deleteSchema_cache in Hdel as Hcache.
  split_and!.
  - exact Hcache.
  - intros e. rewrite Hcache. apply elem_of_cache_delete.
  - intros Hnd. rewrite Hcache. by apply cache_delete_length.
  - intros k Hk. rewrite Hcache. by apply cache_peek_delete_ne.
  - intros now later namespace' name' version' cached c Hk Hget.
    eexists. split.
    + apply getSchema_cached. rewrite Hcache, cache_get_delete_ne by exact Hk.
      rewrite Hget. reflexivity.
    + reflexivity.
Qed.

(** The theorem at a cache with two entries: deleting version 1 keeps the
    entry of version 2, which [getSchema] still returns without a
    request. *)
Lemma deleteSchema_witness :
  deleteSchema isNetworkOrIdempotentRequestError Examples.defaults Examples.ok
    "billing" "invoice" "1" Examples.two_entries
    = (Returned tt,
       {| cache := [ {| key := "billing:invoice:2"; value := "{2}"; start := 10 |} ];
          log := [ {| method := DELETE; url := "/schemas/billing/invoice/1";
                      body := NoBody |} ] |})
  ∧ ∃ st'',
      getSchema isNetworkOrIdempotentRequestError Examples.defaults Examples.ok
        20 21 "billing" "invoice" "2"
        {| cache := [ {| key := "billing:invoice:2"; value := "{2}"; start := 10 |} ];
           log := [ {| method := DELETE; url := "/schemas/billing/invoice/1";
                       body := NoBody |} ] |}
        = (Returned "{2}", st'')
      ∧ log st'' = [ {| method := DELETE; url := "/schemas/billing/invoice/1";
                        body := NoBody |} ].
Proof.
  split; [reflexivity|].
  exact (proj2 (proj2 (proj2 (proj2
    (deleteSchema_leaves_other_entries
       isNetworkOrIdempotentRequestError Examples.defaults Examples.ok
       "billing" "invoice" "1" Examples.two_entries _ eq_refl))))
    20%Z 21%Z "billing" "invoice" "2" "{2}" _ ltac:(discriminate) eq_refl).
Defined.

(** Distinct triples can share a cache key: the key joins the three parts
    with colons, which the parts may contain themselves. *)
Remark cacheKey_not_injective :
  cacheKey "a:b" "c" "1" = cacheKey "a" "b:c" "1".
Proof. reflexivity. Qed.

(** * The compatibility engine *)

Import Engine.

Section EngineFacts.

Variable widens : string -> string -> bool.

Abbreviation canRead' := (canRead widens).

(** Every schema reads what it writes. *)
Lemma canRead_refl (node : SchemaNode) : canRead' node node = true.
Proof.
  induction node as
    [kind|name fields IH|name type required default IH|elementType IH|valueType IH
    |name symbols defaultSymbol|members IH] using SchemaNode_ind; simpl.
  - by rewrite String.eqb_refl.
  - apply forallb_forall. intros field Hin.
    destruct field as [| |fname ftype frequired fdefault| | | |]; try reflexivity.
    apply orb_true_iff. left. apply orb_true_iff. right.
    apply existsb_exists. exists (Field fname ftype frequired fdefault).
    split; [exact Hin|]. rewrite String.eqb_refl. simpl.
    rewrite Forall_forall in IH.
    exact (IH (Field fname ftype frequired fdefault) (proj2 (list_elem_of_In _ _) Hin)).
  - exact IH.
  - exact IH.
  - exact IH.
  - apply orb_true_iff. left. apply forallb_forall. intros s Hin.
    apply bool_decide_eq_true. by apply list_elem_of_In.
  - apply forallb_forall. intros member Hin.
    apply existsb_exists. exists member. split; [exact Hin|].
    rewrite Forall_forall in IH. apply IH. by apply list_elem_of_In.
Qed.

(** A record reads a record when each field of the reader is a field of
    the writer or has a default. *)
Lemma canRead_record_fields wname wfields rname rfields :
  (∀ fname ftype frequired fdefault,
     In (Field fname ftype frequired fdefault) rfields →
     In (Field fname ftype frequired fdefault) wfields ∨ is_Some fdefault) →
  canRead' (Record wname wfields) (Record rname rfields) = true.
Proof.
  intros Hfields. simpl. apply forallb_forall. intros field Hin.
  destruct field as [| |fname ftype frequired fdefault| | | |]; try reflexivity.
  destruct (Hfields _ _ _ _ Hin) as [Hw|Hd].
  - apply orb_true_iff. left. apply orb_true_iff. right.
    apply existsb_exists. exists (Field fname ftype frequired fdefault).
    split; [exact Hw|]. rewrite String.eqb_refl. apply canRead_refl.
  - apply orb_true_iff. right. by apply bool_decide_eq_true.
Qed.

(** No reason is recorded exactly when every predicate holds. *)
Lemma failures_nil ps candidate version entry :
  failures widens ps candidate version entry = []
  ↔ forallb (fun p => holds widens p candidate entry) ps = true.
Proof.
  unfold failures. induction ps as [|p ps IH]; simpl; [done|].
  destruct (holds widens p candidate entry); simpl; [exact IH|]. split; discriminate.
Qed.

(** The first reason recorded is for the first predicate that fails. *)
Lemma failures_first ps candidate version entry p :
  find (fun p => negb (holds widens p candidate entry)) ps = Some p →
  ∃ rest,
    failures widens ps candidate version entry
      = {| failed := p; against := version |} :: rest.
Proof.
  unfold failures. induction ps as [|q ps IH]; simpl; [discriminate|].
  destruct (holds widens q candidate entry); simpl.
  - exact IH.
  - intros [= ->]. eexists. reflexivity.
Qed.

(** When every entry passes, all of them are checked, oldest first. *)
Lemma check_all_pass ps candidate version history :
  (∀ entry, entry ∈ history →
     forallb (fun p => holds widens p candidate entry) ps = true) →
  check_all widens ps candidate version history = ([], seq version (length history)).
Proof.
  revert version. induction history as [|entry newer IH]; intros version Hall;
    [reflexivity|]. simpl.
  rewrite (proj2 (failures_nil ps candidate version entry))
    by (apply Hall; left).
  rewrite IH by (intros e He; apply Hall; by right). reflexivity.
Qed.

(** The check stops at the oldest entry that fails: the reason cites this
    entry and its first failing predicate, and no newer entry is
    checked. *)
Lemma check_all_stops ps candidate version older entry newer p :
  (∀ e, e ∈ older → forallb (fun p => holds widens p candidate e) ps = true) →
  find (fun p => negb (holds widens p candidate entry)) ps = Some p →
  check_all widens ps candidate version (older ++ entry :: newer)
    = ([ {| failed := p; against := version + length older |} ],
       seq version (S (length older))).
Proof.
  revert version. induction older as [|e older IH]; intros version Hall Hfail.
  - simpl. destruct (failures_first ps candidate version entry p Hfail) as [rest ->].
    by rewrite Nat.add_0_r.
  - simpl. rewrite (proj2 (failures_nil ps candidate version e)) by (apply Hall; left).
    rewrite (IH (S version)) by (try (intros e' He'; apply Hall; by right); exact Hfail).
    by rewrite Nat.add_succ_r.
Qed.

End EngineFacts.

(** C6. When [B] is [A] with one more field that has a default value,
    [canRead(B, A)] and [canRead(A, B)] both hold, whatever the table of
    widenings, and the engine finds [B] FULL-compatible with the history
    [[A]]. *)
Theorem additive_change_is_full_compatible
    (widens : string -> string -> bool) (A B : SchemaNode) :
  adds_field_with_default A B →
  canRead widens B A = true
  ∧ canRead widens A B = true
  ∧ checkCompatibility widens B [A] Types.FULL
    = {| compatible := true; incompatibilities := []; checkedAgainstVersions := [1] |}.
Proof.
  intros (rname & before & after & fname & ftype & frequired & fdefault & -> & -> & _).
  assert (HBA : canRead widens
                  (Record rname (before ++ Field fname ftype frequired (Some fdefault) :: after))
                  (Record rname (before ++ after)) = true).
  { apply canRead_record_fields. intros n t r d Hin. left.
    apply in_app_iff. apply in_app_iff in Hin as [Hin|Hin]; [by left|].
    right. by right. }
  assert (HAB : canRead widens
                  (Record rname (before ++ after))
                  (Record rname (before ++ Field fname ftype frequired (Some fdefault) :: after))
                = true).
  { apply canRead_record_fields. intros n t r d Hin.
    apply in_app_iff in Hin as [Hin|[Heq|Hin]].
    - left. apply in_app_iff. by left.
    - right. injection Heq as <- <- <- <-. by eexists.
    - left. apply in_app_iff. by right. }
  split_and!; [exact HBA | exact HAB |].
  unfold checkCompatibility, failures. cbn [last predicates List.filter holds].
  simpl last. cbv beta iota. simpl length.
  unfold holds. cbn [List.filter]. rewrite HBA, HAB. reflexivity.
Qed.

(** The theorem at a record that gains the field [nickname] with the
    default [null]. *)
Lemma additive_change_witness :
  adds_field_with_default Examples.user_v2 Examples.user_v3
  ∧ canRead named_widenings Examples.user_v3 Examples.user_v2 = true
  ∧ canRead named_widenings Examples.user_v2 Examples.user_v3 = true.
Proof.
  assert (H : adds_field_with_default Examples.user_v2 Examples.user_v3).
  { exists "User", [Field "name" (Primitive "string") true None], [],
      "nickname", (Primitive "string"), false, "null".
    split_and!; [reflexivity | reflexivity |].
    intros n t r d Hin Heq. subst n.
    apply list_elem_of_In in Hin. simpl in Hin.
    destruct Hin as [Hin|[]]. discriminate Hin. }
  split; [exact H|].
  pose proof (additive_change_is_full_compatible named_widenings _ _ H) as (HBA & HAB & _).
  split; [exact HBA | exact HAB].
Defined.

(** C5. In a transitive mode the predicates of the mode are checked
    against the entries of the history oldest first, and the check stops
    at the first predicate that fails: when every entry older than [entry]
    passes and [p] is the first predicate that fails against [entry], the
    verdict is incompatible, its only reason cites [entry] and [p], and the
    versions checked are those up to [entry], whatever the newer entries
    are; when every entry passes, the verdict is compatible and every
    version was checked. *)
Theorem transitive_modes_check_oldest_first
    (widens : string -> string -> bool) (mode : Types.CompatibilityMode)
    (candidate : SchemaNode) :
  transitive mode = true →
  (∀ older entry newer p,
     (∀ e, e ∈ older → satisfies widens mode candidate e = true) →
     first_failing widens mode candidate entry = Some p →
     checkCompatibility widens candidate (older ++ entry :: newer) mode
       = {| compatible := false;
            incompatibilities := [ {| failed := p; against := S (length older) |} ];
            checkedAgainstVersions := seq 1 (S (length older)) |})
  ∧ (∀ history,
       (∀ e, e ∈ history → satisfies widens mode candidate e = true) →
       checkCompatibility widens candidate history mode
         = {| compatible := true;
              incompatibilities := [];
              checkedAgainstVersions := seq 1 (length history) |}).
Proof.
  intros Hmode. split.
  - intros older entry newer p Hold Hfail.
    pose proof (check_all_stops widens (predicates mode) candidate 1
                  older entry newer p Hold Hfail) as Hcheck.
    destruct mode; try discriminate Hmode; unfold checkCompatibility;
      rewrite Hcheck; reflexivity.
  - intros history Hall.
    pose proof (check_all_pass widens (predicates mode) candidate 1 history Hall)
      as Hcheck.
    destruct mode; try discriminate Hmode; unfold checkCompatibility;
      rewrite Hcheck; reflexivity.
Qed.

(** The theorem at the history [[v1; v2]] where the candidate is
    incompatible with [v1] and compatible with [v2]: under
    BACKWARD_TRANSITIVE the verdict is incompatible and cites version 1,
    and version 2 is not checked. *)
Lemma transitive_short_circuit_witness :
  transitive Types.BACKWARD_TRANSITIVE = true
  ∧ satisfies named_widenings Types.BACKWARD_TRANSITIVE
      Examples.user_v2 Examples.user_v1 = false
  ∧ satisfies named_widenings Types.BACKWARD_TRANSITIVE
      Examples.user_v2 Examples.user_v2 = true
  ∧ checkCompatibility named_widenings Examples.user_v2
      [Examples.user_v1; Examples.user_v2] Types.BACKWARD_TRANSITIVE
    = {| compatible := false;
         incompatibilities := [ {| failed := Backward; against := 1 |} ];
         checkedAgainstVersions := [1] |}.
Proof.
  split_and!; [reflexivity | reflexivity | reflexivity |].
  refine (proj1 (transitive_modes_check_oldest_first named_widenings
                   Types.BACKWARD_TRANSITIVE Examples.user_v2 eq_refl)
                [] Examples.user_v1 [Examples.user_v2] Backward _ eq_refl).
  intros e He. apply list_elem_of_In in He. destruct He.
Defined.

(** C4. [CheckCompatibility] fails with [InsufficientHistoryError] when
    there is no prior version and the mode is not NONE, and with
    [FormatMismatchError] when some prior version declares another format
    than the candidate; it returns a verdict only when every prior version
    declares the format of the candidate. *)
Theorem CheckCompatibility_usage_errors
    (widens : string -> string -> bool)
    (parse : string -> Types.SchemaFormat -> option SchemaNode)
    (candidateDocument : SchemaDocument) (priorVersions : list SchemaDocument)
    (mode : Types.CompatibilityMode) :
  (priorVersions = [] → mode ≠ Types.NONE →
     CheckCompatibility widens parse candidateDocument priorVersions mode
       = inl InsufficientHistoryError)
  ∧ ((∃ prior, prior ∈ priorVersions ∧ format prior ≠ format candidateDocument) →
       CheckCompatibility widens parse candidateDocument priorVersions mode
         = inl FormatMismatchError)
  ∧ (∀ verdict,
       CheckCompatibility widens parse candidateDocument priorVersions mode
         = inr verdict →
       ∀ prior, prior ∈ priorVersions → format prior = format candidateDocument).
Proof.
  unfold CheckCompatibility. split_and!.
  - intros Hnil Hmode. rewrite bool_decide_eq_true_2 by done. reflexivity.
  - intros (prior & Hin & Hformat).
    rewrite bool_decide_eq_false_2.
    2: { intros [Hnil _]. subst priorVersions. by apply not_elem_of_nil in Hin. }
    assert (existsb (fun prior => bool_decide (format prior ≠ format candidateDocument))
              priorVersions = true) as ->; [|reflexivity].
    apply existsb_exists. exists prior.
    split; [by apply list_elem_of_In | by apply bool_decide_eq_true].
  - intros verdict Hverdict prior Hin.
    destruct (bool_decide (priorVersions = [] ∧ mode ≠ Types.NONE)); [discriminate|].
    destruct (existsb _ priorVersions) eqn:Hex; [discriminate|].
    destruct (decide (format prior = format candidateDocument)) as [|Hne]; [done|].
    assert (existsb (fun prior => bool_decide (format prior ≠ format candidateDocument))
              priorVersions = true) as Htrue; [|congruence].
    apply existsb_exists. exists prior.
    split; [by apply list_elem_of_In | by apply bool_decide_eq_true].
Qed.

(** The theorem at an empty history under BACKWARD, and at an Avro
    candidate with a Protobuf prior version. *)
Lemma CheckCompatibility_usage_errors_witness :
  CheckCompatibility named_widenings Examples.parse_user
    Examples.avro_document [] Types.BACKWARD = inl InsufficientHistoryError
  ∧ CheckCompatibility named_widenings Examples.parse_user
      Examples.avro_document [Examples.protobuf_document] Types.BACKWARD
    = inl FormatMismatchError.
Proof.
  split.
  - apply (proj1 (CheckCompatibility_usage_errors named_widenings Examples.parse_user
                    Examples.avro_document [] Types.BACKWARD));
      [reflexivity | discriminate].
  - apply (proj1 (proj2 (CheckCompatibility_usage_errors named_widenings
                           Examples.parse_user Examples.avro_document
                           [Examples.protobuf_document] Types.BACKWARD))).
    exists Examples.protobuf_document. split; [by left | discriminate].
Defined.

(** [canRead] is not symmetric: the record that requires [email] without a
    default cannot read what the record without that field writes, while
    the extra field is ignored the other way round. *)
Example canRead_asymmetric :
  canRead named_widenings Examples.user_v2 Examples.user_v1 = false
  ∧ canRead named_widenings Examples.user_v1 Examples.user_v2 = true.
Proof. split; reflexivity. Qed.

(** A widening is readable, the narrowing back is not. *)
Example canRead_widening :
  canRead named_widenings (Primitive "int32") (Primitive "int64") = true
  ∧ canRead named_widenings (Primitive "int64") (Primitive "int32") = false.
Proof. split; reflexivity. Qed.

(** Without short-circuit FULL reports both predicates that fail against
    the most recent entry. *)
Example full_reports_every_failure :
  checkCompatibility named_widenings (Primitive "string") [Primitive "bytes"] Types.FULL
    = {| compatible := false;
         incompatibilities := [ {| failed := Backward; against := 1 |};
                                {| failed := Forward; against := 1 |} ];
         checkedAgainstVersions := [1] |}.
Proof. reflexivity. Qed.

(** * Further properties of the SDK *)

Import Scenarios.

(** ** types.js and errors.js *)

(** X1. [SchemaFormat] has exactly the three members JSON_SCHEMA, AVRO and
    PROTOBUF, stored as [json_schema], [avro] and [protobuf]. *)
Theorem SchemaFormat_has_exactly_three_members :
  dom Types.SchemaFormat_object = {[ "JSON_SCHEMA"; "AVRO"; "PROTOBUF" ]}
  ∧ Types.SchemaFormat_object !! "JSON_SCHEMA" = Some "json_schema"
  ∧ Types.SchemaFormat_object !! "AVRO" = Some "avro"
  ∧ Types.SchemaFormat_object !! "PROTOBUF" = Some "protobuf"
  ∧ (∀ f : Types.SchemaFormat, f ∈ [Types.JSON_SCHEMA; Types.AVRO; Types.PROTOBUF]).
Proof.
  split_and!; try reflexivity.
  intros []; compute_done.
Qed.

(** A property of an enum object is one of its listed pairs. *)
Lemma enum_lookup_listed (obj : gmap string string) (pairs : list (string * string))
    (k v : string) :
  map_to_list obj ≡ₚ pairs → obj !! k = Some v → (k, v) ∈ pairs.
Proof. intros Hperm Hk. rewrite <- Hperm. by apply elem_of_map_to_list. Qed.

Lemma CompatibilityMode_object_pairs :
  map_to_list Types.CompatibilityMode_object
    ≡ₚ (fun m => (Types.mode_key m, Types.mode_value m)) <$> Types.all_modes.
Proof.
  apply NoDup_Permutation.
  - apply NoDup_map_to_list.
  - compute_done.
  - intros [k v]. rewrite elem_of_map_to_list. split.
    + intros Hk.
      assert (Hdom : k ∈ dom Types.CompatibilityMode_object)
        by (apply elem_of_dom; eauto).
      unfold Types.CompatibilityMode_object, Js.assign in Hdom.
      rewrite !dom_insert_L, dom_empty_L in Hdom.
      rewrite !elem_of_union, !elem_of_singleton in Hdom.
      destruct Hdom as [?|[?|[?|[?|[?|[?|[?|Hempty]]]]]]]; try subst k;
        try (vm_compute in Hk; injection Hk as <-; compute_done).
      by apply not_elem_of_empty in Hempty.
    + intros Hin. apply list_elem_of_fmap in Hin as (m & [= -> ->] & _).
      by destruct m.
Qed.

(** X2. No two members of [CompatibilityMode] share a runtime value: a
    value read back from the enum object identifies its property name, and
    the value of a member identifies the member. *)
Theorem CompatibilityMode_values_are_distinct :
  (∀ k1 k2 v,
     Types.CompatibilityMode_object !! k1 = Some v →
     Types.CompatibilityMode_object !! k2 = Some v → k1 = k2)
  ∧ (∀ m1 m2, Types.mode_value m1 = Types.mode_value m2 → m1 = m2).
Proof.
  split.
  - intros k1 k2 v H1 H2.
    apply (enum_lookup_listed _ _ _ _ CompatibilityMode_object_pairs) in H1, H2.
    apply list_elem_of_fmap in H1 as (m1 & [= -> ->] & _).
    apply list_elem_of_fmap in H2 as (m2 & [= -> Hv] & _).
    by destruct m1, m2.
  - by intros [] [].
Qed.

(** The theorem at the value [full]. *)
Lemma CompatibilityMode_values_witness :
  Types.CompatibilityMode_object !! "FULL" = Some "full"
  ∧ Types.mode_value Types.FULL = "full"
  ∧ "FULL" = "FULL"
  ∧ Types.FULL = Types.FULL.
Proof.
  split; [reflexivity|]. split; [reflexivity|]. split.
  - exact (proj1 CompatibilityMode_values_are_distinct "FULL" "FULL" "full"
             eq_refl eq_refl).
  - exact (proj2 CompatibilityMode_values_are_distinct Types.FULL Types.FULL eq_refl).
Defined.

(** X3. [instanceof] on the classes of errors.js: an instance of class [c]
    is an instance of [d] exactly when [d] is [c], or [Error], or
    [SchemaRegistryError] for a [c] of the module; so no instance of one
    subclass is an instance of another. *)
Theorem instanceof_characterisation (c d : Errors.Class.t) :
  Errors.instanceof c d = true
  ↔ d = c ∨ d = Errors.Class.Error
    ∨ (d = Errors.Class.SchemaRegistryError ∧ c ≠ Errors.Class.Error).
Proof.
  destruct c, d; vm_compute; split; intros H;
    first [ reflexivity | discriminate
          | (by left) | (right; by left) | (right; right; split; congruence)
          | (destruct H as [H|[H|[H H']]]; congruence) ].
Qed.

(** ** handleError *)

(** X4. [handleError] builds exactly the classes of errors that index.js
    exports: every error it returns has one of them as its class, each of
    them is the class of the error for some input, so it never builds an
    [AuthorizationError] or a [ServerError]; and no error it returns
    carries [retryAfter]. *)
Theorem handleError_builds_the_exported_classes :
  (∀ c, c ∈ Index.exports ↔ ∃ error, Errors.proto (handleError error) = c)
  ∧ (∀ error,
       Errors.proto (handleError error) ≠ Errors.Class.AuthorizationError
       ∧ Errors.proto (handleError error) ≠ Errors.Class.ServerError)
  ∧ (∀ error, Errors.retryAfter (handleError error) = None).
Proof.
  assert (Hall : ∀ error, Errors.proto (handleError error) ∈ Index.exports).
  { intros [axiosError| | |]; try compute_done.
    rewrite handleError_switch. cbv zeta.
    repeat case_match; compute_done. }
  split_and!.
  - intros c. split.
    + intros Hc. unfold Index.exports in Hc.
      rewrite !elem_of_cons in Hc.
      destruct Hc as [->|[->|[->|[->|[->|[->|Hnil]]]]]].
      * by exists ThrownOther.
      * by exists (ThrownAxios (Examples.rejection 404 None)).
      * by exists (ThrownAxios Examples.unprocessable).
      * by exists (ThrownAxios Examples.conflict_with_message).
      * by exists (ThrownAxios forbidden).
      * by exists (ThrownAxios Examples.rate_limited).
      * by apply not_elem_of_nil in Hnil.
    + intros [error <-]. apply Hall.
  - intros error. specialize (Hall error).
    split; intros Heq; rewrite Heq in Hall; revert Hall; compute_done.
  - intros [axiosError| | |]; try reflexivity.
    rewrite handleError_switch. cbv zeta.
    repeat case_match; reflexivity.
Qed.

(** X5. The [statusCode] of the error for an axios error is the status of
    the response, except that 403 is reported as 401 and 422 as 400; it is
    undefined when there is no response and for every other thrown
    value. *)
Theorem handleError_statusCode :
  (∀ axiosError,
     Errors.statusCode (handleError (ThrownAxios axiosError))
       = (fun status =>
            if (status =? 403)%Z then 401%Z
            else if (status =? 422)%Z then 400%Z
            else status) <$> response_status axiosError)
  ∧ (∀ e, Errors.statusCode (handleError (ThrownSdk e)) = None)
  ∧ (∀ message, Errors.statusCode (handleError (ThrownError message)) = None)
  ∧ Errors.statusCode (handleError ThrownOther) = None.
Proof.
  split_and!; try reflexivity.
  intros axiosError. rewrite handleError_switch. cbv zeta.
  destruct (response_status axiosError) as [status|]; [|reflexivity]. simpl.
  repeat case_match; try reflexivity;
    repeat match goal with
           | H : (_ =? _)%Z = true |- _ => apply Z.eqb_eq in H
           | H : (_ || _) = true |- _ => apply orb_true_iff in H as [H|H]
           | H : (_ || _) = false |- _ => apply orb_false_iff in H as [? ?]
           end; subst; try reflexivity; try discriminate.
Qed.

(** X6. The list of errors that [handleError] passes to
    [IncompatibleSchemaError] and [SchemaValidationError] is the list of
    the body whenever the body has one; it is empty only when the body
    lists an empty array, and it is the message alone when the body lists
    none. *)
Theorem response_errors_empty_iff (axiosError : AxiosError.t) :
  (response_errors axiosError = [] ↔ listed_errors axiosError = Some [])
  ∧ (∀ errors, listed_errors axiosError = Some errors →
       response_errors axiosError = errors)
  ∧ (listed_errors axiosError = None →
       response_errors axiosError = [response_message axiosError]).
Proof.
  unfold response_errors, listed_errors.
  destruct ((AxiosError.response axiosError ≫= Response.data) ≫= Data.errors)
    as [errors|]; simpl.
  - split_and!; [split; congruence | congruence | discriminate].
  - split_and!; [split; discriminate | discriminate | reflexivity].
Qed.

(** The theorem at the 409 response with an empty array and at the one
    without an array. *)
Lemma response_errors_witness :
  listed_errors Examples.conflict_without_reasons = Some []
  ∧ response_errors Examples.conflict_without_reasons = []
  ∧ listed_errors Examples.conflict_with_message = None
  ∧ response_errors Examples.conflict_with_message = ["Schema is incompatible"].
Proof.
  split_and!; [reflexivity | | reflexivity |].
  - exact (proj2 (proj1 (response_errors_empty_iff Examples.conflict_without_reasons))
             eq_refl).
  - exact (proj2 (proj2 (response_errors_empty_iff Examples.conflict_with_message))
             eq_refl).
Defined.

(** X7. The message that [handleError] uses is the first non-empty one of
    the [message] of the body, the [error] of the body and the message of
    the axios error: it is empty only when all three are empty or
    absent. *)
Theorem response_message_precedence (axiosError : AxiosError.t) :
  (response_message axiosError = ""
   ↔ AxiosError.message axiosError = ""
     ∧ (data_message axiosError = None ∨ data_message axiosError = Some "")
     ∧ (data_error axiosError = None ∨ data_error axiosError = Some ""))
  ∧ (∀ m, data_message axiosError = Some m → m ≠ "" →
       response_message axiosError = m)
  ∧ (∀ m, (data_message axiosError = None ∨ data_message axiosError = Some "") →
       data_error axiosError = Some m → m ≠ "" →
       response_message axiosError = m)
  ∧ ((data_message axiosError = None ∨ data_message axiosError = Some "") →
     (data_error axiosError = None ∨ data_error axiosError = Some "") →
     response_message axiosError = AxiosError.message axiosError).
Proof.
  unfold response_message, data_message, data_error, Js.or_string.
  destruct ((AxiosError.response axiosError ≫= Response.data) ≫= Data.message)
    as [m1|];
  destruct ((AxiosError.response axiosError ≫= Response.data) ≫= Data.error)
    as [m2|];
  repeat match goal with
         | |- context [String.eqb ?s ""] => destruct (String.eqb_spec s "")
         end;
  subst; split_and!; try split; intros;
  repeat match goal with
         | H : _ ∧ _ |- _ => destruct H
         | H : _ ∨ _ |- _ => destruct H
         | H : Some _ = Some _ |- _ => injection H as H
         end;
  subst; try congruence; try (split_and!; auto; congruence).
Qed.

(** The theorem at the 422 response, whose body has a message. *)
Lemma response_message_witness :
  data_message Examples.unprocessable = Some "Validation failed"
  ∧ response_message Examples.unprocessable = "Validation failed".
Proof.
  split; [reflexivity|].
  exact (proj1 (proj2 (response_message_precedence Examples.unprocessable))
           "Validation failed" eq_refl ltac:(discriminate)).
Defined.

(** ** Requests and retries *)


(** X8. A request makes between one and [1 + retries] attempts, all of
    them with the same request, and what it surfaces is the outcome of the
    last attempt; the cache is not touched. *)
Theorem http_surfaces_the_last_attempt {Obj : Type}
    (isNetworkOrIdempotentRequestError : AxiosError.t -> bool)
    (config : ClientConfig) (net : nat -> Request Obj -> Settled Obj)
    (request : Request Obj) (st : State Obj) :
  ∃ k, (1 ≤ k ≤ 1 + Z.to_nat (retries config))%nat
       ∧ http isNetworkOrIdempotentRequestError config net request st
         = (net (length (log st) + (k - 1)) request,
            {| cache := cache st; log := (replicate k request ++ log st)%list |}).
Proof.
  destruct (send_outcome isNetworkOrIdempotentRequestError net
              (Z.to_nat (retries config)) request (log st)) as (k & Hk & Hsend).
  exists k. split; [lia|]. unfold http. rewrite Hsend. reflexivity.
Qed.

(** X12. A negative [maxRetries] switches retrying off: every request
    makes a single attempt and surfaces its outcome. *)
Theorem negative_maxRetries_disables_retries {Obj : Type}
    (isNetworkOrIdempotentRequestError : AxiosError.t -> bool)
    (config : ClientConfig) (net : nat -> Request Obj -> Settled Obj)
    (request : Request Obj) (st : State Obj) (n : Z) :
  maxRetries config = Some n → (n < 0)%Z →
  http isNetworkOrIdempotentRequestError config net request st
    = (net (length (log st)) request,
       {| cache := cache st; log := request :: log st |}).
Proof.
  intros Hmax Hneg. unfold http, retries, Js.or_number. rewrite Hmax.
  destruct (Z.eqb_spec n 0); [lia|].
  replace (Z.to_nat n) with 0%nat by lia.
  rewrite send_last. reflexivity.
Qed.

(** The theorem at [maxRetries: -1] and a server that always answers
    429. *)
Lemma negative_maxRetries_witness :
  http isNetworkOrIdempotentRequestError no_retries
    (Examples.always Examples.rate_limited) register_request new_client
  = (Rejected (ThrownAxios Examples.rate_limited),
     {| cache := []; log := [register_request] |}).
Proof.
  exact (negative_maxRetries_disables_retries isNetworkOrIdempotentRequestError
           no_retries (Examples.always Examples.rate_limited) register_request
           new_client (-1) eq_refl eq_refl).
Defined.

(** X13. A call of an operation sends at most one request, possibly
    several times: the attempts it adds to the log all carry the same
    request, and what was logged before is kept. *)
Theorem run_sends_one_request {Obj : Type}
    (isNetworkOrIdempotentRequestError : AxiosError.t -> bool)
    (config : ClientConfig) (net : nat -> Request Obj -> Settled Obj)
    (call : Call) (st : State Obj) :
  ∃ (k : nat) (request : Request Obj),
    (k ≤ 1 + Z.to_nat (retries config))%nat
    ∧ log (run isNetworkOrIdempotentRequestError config net call st).2
      = (replicate k request ++ log st)%list.
Proof.
  assert (Hhttp : ∀ request st0,
    ∃ k, (k ≤ 1 + Z.to_nat (retries config))%nat
         ∧ log (http isNetworkOrIdempotentRequestError config net request st0).2
           = (replicate k request ++ log st0)%list).
  { intros request st0.
    destruct (send_outcome isNetworkOrIdempotentRequestError net
                (Z.to_nat (retries config)) request (log st0)) as (k & Hk & Hsend).
    exists k. split; [lia|]. unfold http. rewrite Hsend. reflexivity. }
  assert (Htry : ∀ request,
    ∃ (k : nat) (request' : Request Obj),
      (k ≤ 1 + Z.to_nat (retries config))%nat
      ∧ log (outcome (try_request isNetworkOrIdempotentRequestError config net
                        request st)).2
        = (replicate k request' ++ log st)%list).
  { intros request. rewrite outcome_state. unfold try_request.
    destruct (Hhttp request st) as (k & Hk & Hlog).
    exists k, request. split; [exact Hk|].
    destruct (http _ _ _ request st) as [[data|error] st']; exact Hlog. }
  set (none := {| method := GET; url := ""; body := NoBody |} : Request Obj).
  destruct call; simpl; try apply Htry.
  - rewrite outcome_state. unfold getSchema.
    destruct (cache_get _ _ _ _) as [[cached|] c]; simpl.
    + exists 0%nat, none. split; [lia | reflexivity].
    + match goal with |- context [http _ _ _ ?r ?s] =>
        destruct (Hhttp r s) as (k & Hk & Hlog); exists k, r;
        destruct (http isNetworkOrIdempotentRequestError config net r s)
          as [[data|error] st']
      end; (split; [exact Hk | exact Hlog]).
  - rewrite outcome_state. unfold deleteSchema.
    match goal with |- context [http _ _ _ ?r ?s] =>
      destruct (Hhttp r s) as (k & Hk & Hlog); exists k, r;
      destruct (http isNetworkOrIdempotentRequestError config net r s)
        as [[data|error] st']
    end; (split; [exact Hk | exact Hlog]).
  - exists 0%nat, none. split; [lia | reflexivity].
Qed.

(** ** Operations and the cache *)

Section CacheLengths.

Context {Obj : Type}.
Implicit Types (c : list (Entry Obj)) (k : string).

Lemma cache_delete_le k c : (length (cache_delete k c) ≤ length c)%nat.
Proof.
  induction c as [|e c IH]; simpl; [lia|].
  destruct (is_key k e); simpl; lia.
Qed.

Lemma cache_delete_lt k c e :
  cache_peek k c = Some e → (length (cache_delete k c) < length c)%nat.
Proof.
  induction c as [|e' c IH]; simpl; [discriminate|].
  destruct (is_key k e') eqn:Hk; simpl.
  - intros _. pose proof (cache_delete_le k c). lia.
  - intros H. specialize (IH H). lia.
Qed.

Lemma cache_get_le ttl now k c :
  (length (cache_get ttl now k c).2 ≤ length c)%nat.
Proof.
  unfold cache_get. destruct (cache_peek k c) as [e|] eqn:Hpeek; [|simpl; lia].
  pose proof (cache_delete_lt k c e Hpeek).
  destruct (is_stale ttl now e); simpl; lia.
Qed.

Lemma cache_set_le max now k (v : Obj) c :
  (length (cache_set max now k v c) ≤ max)%nat.
Proof. unfold cache_set. rewrite length_take. lia. Qed.

(** A [get] that finds nothing or a stale entry leaves no entry under the
    key. *)
Lemma cache_get_none ttl now k c c' :
  cache_get ttl now k c = (None, c') → cache_peek k c' = None.
Proof.
  unfold cache_get. destruct (cache_peek k c) as [e|] eqn:Hpeek.
  - destruct (is_stale ttl now e); [|discriminate].
    intros [= <-]. apply cache_peek_delete_eq.
  - intros [= <-]. exact Hpeek.
Qed.

(** A [get] right after a [set] of the key finds the value while it is
    fresh, when the cache holds at least one entry. *)
Lemma cache_get_set ttl max now later k (v : Obj) c :
  (0 < max)%nat → (now - later ≤ ttl)%Z →
  (cache_get ttl now k (cache_set max later k v c)).1 = Some v.
Proof.
  intros Hmax Hfresh. destruct max as [|max]; [lia|].
  unfold cache_set, cache_get. simpl.
  unfold is_key at 1. simpl. rewrite String.eqb_refl.
  unfold is_stale. simpl.
  destruct (Z.ltb_spec ttl (now - later)); [lia | reflexivity].
Qed.

End CacheLengths.

Section CacheOperations.

Context {Obj : Type}.
Variable isNetworkOrIdempotentRequestError : AxiosError.t -> bool.
Variable config : ClientConfig.
Variable net : nat -> Request Obj -> Settled Obj.

Abbreviation http0 := (http isNetworkOrIdempotentRequestError config net).
Abbreviation try_request0 := (try_request isNetworkOrIdempotentRequestError config net).
Abbreviation getSchema0 := (getSchema isNetworkOrIdempotentRequestError config net).
Abbreviation deleteSchema0 :=
  (deleteSchema isNetworkOrIdempotentRequestError config net).
Abbreviation run0 := (run isNetworkOrIdempotentRequestError config net).

Lemma try_request_cache (request : Request Obj) (st : State Obj) :
  cache (try_request0 request st).2 = cache st.
Proof.
  unfold try_request.
  pose proof (http_cache isNetworkOrIdempotentRequestError config net request st) as Hc.
  destruct (http0 request st) as [[data|error] st']; exact Hc.
Qed.

(** [getSchema] sends a request exactly when the cache has no fresh entry
    for the key. *)
Lemma getSchema_log now later namespace name version (st : State Obj) :
  (cache_get (ttl config) now (cacheKey namespace name version) (cache st)).1 = None →
  (length (log st) < length (log (getSchema0 now later namespace name version st).2))%nat.
Proof.
  unfold getSchema.
  destruct (cache_get _ _ _ _) as [[cached|] c]; simpl; [discriminate|]. intros _.
  match goal with |- context [http0 ?r ?s] =>
    pose proof (http_attempts isNetworkOrIdempotentRequestError config net r s) as [H _];
    destruct (http0 r s) as [[data|error] st']
  end; exact H.
Qed.

End CacheOperations.

(** X14. The operations other than [getSchema], [deleteSchema] and
    [clearCache] leave the cache as it is: in particular [registerSchema]
    invalidates nothing and [getLatestSchema] neither reads nor fills the
    cache. *)
Theorem plain_operations_leave_the_cache {Obj : Type}
    (isNetworkOrIdempotentRequestError : AxiosError.t -> bool)
    (config : ClientConfig) (net : nat -> Request Obj -> Settled Obj)
    (call : Call) (st : State Obj) :
  uses_cache call = false →
  cache (run isNetworkOrIdempotentRequestError config net call st).2 = cache st.
Proof.
  destruct call; simpl; try discriminate; intros _;
    rewrite outcome_state; apply try_request_cache.
Qed.

(** The theorem at [registerSchema] on a cache with two entries. *)
Lemma plain_operations_witness :
  cache (run isNetworkOrIdempotentRequestError Examples.defaults Examples.ok
           (CallRegisterSchema "{}") Examples.two_entries).2
    = cache Examples.two_entries.
Proof.
  exact (plain_operations_leave_the_cache isNetworkOrIdempotentRequestError
           Examples.defaults Examples.ok (CallRegisterSchema "{}")
           Examples.two_entries eq_refl).
Defined.

(** X15. A [deleteSchema] that throws leaves the cache as it is: the entry
    of the schema stays cached. *)
Theorem failed_deleteSchema_keeps_the_cache {Obj : Type}
    (isNetworkOrIdempotentRequestError : AxiosError.t -> bool)
    (config : ClientConfig) (net : nat -> Request Obj -> Settled Obj)
    (namespace name version : string) (st st' : State Obj) (e : Thrown) :
  deleteSchema isNetworkOrIdempotentRequestError config net namespace name version st
    = (Threw e, st') →
  cache st' = cache st.
Proof.
  unfold deleteSchema.
  match goal with |- context [http _ _ _ ?r ?s] =>
    pose proof (http_cache isNetworkOrIdempotentRequestError config net r s) as Hc;
    destruct (http isNetworkOrIdempotentRequestError config net r s) as [[data|error] st1]
  end; [discriminate|].
  intros [= _ <-]. exact Hc.
Qed.

(** The theorem at a server that answers 418 to the DELETE. *)
Lemma failed_deleteSchema_witness :
  ∃ e st',
    deleteSchema isNetworkOrIdempotentRequestError Examples.defaults
      (Examples.always Examples.teapot) "billing" "invoice" "1" Examples.two_entries
      = (Threw e, st')
    ∧ cache st' = cache Examples.two_entries.
Proof.
  eexists _, _. split; [reflexivity|].
  exact (failed_deleteSchema_keeps_the_cache isNetworkOrIdempotentRequestError
           Examples.defaults (Examples.always Examples.teapot)
           "billing" "invoice" "1" Examples.two_entries _ _ eq_refl).
Defined.

(** X16. A [getSchema] that throws caches nothing: afterwards the cache
    has no entry under the key of the schema. *)
Theorem failed_getSchema_caches_nothing {Obj : Type}
    (isNetworkOrIdempotentRequestError : AxiosError.t -> bool)
    (config : ClientConfig) (net : nat -> Request Obj -> Settled Obj)
    (now later : Z) (namespace name version : string)
    (st st' : State Obj) (e : Thrown) :
  getSchema isNetworkOrIdempotentRequestError config net
    now later namespace name version st = (Threw e, st') →
  cache_peek (cacheKey namespace name version) (cache st') = None.
Proof.
  unfold getSchema.
  destruct (cache_get _ _ _ _) as [[cached|] c] eqn:Hget; [discriminate|].
  apply cache_get_none in Hget.
  match goal with |- context [http _ _ _ ?r ?s] =>
    pose proof (http_cache isNetworkOrIdempotentRequestError config net r s) as Hc;
    destruct (http isNetworkOrIdempotentRequestError config net r s) as [[data|error] st1]
  end; [discriminate|].
  intros [= _ <-]. simpl in Hc. rewrite Hc. exact Hget.
Qed.

(** The theorem at a server that answers 418 to the GET. *)
Lemma failed_getSchema_witness :
  ∃ e st',
    getSchema isNetworkOrIdempotentRequestError Examples.defaults
      (Examples.always Examples.teapot) 0 1 "billing" "invoice" "3"
      Examples.two_entries = (Threw e, st')
    ∧ cache_peek "billing:invoice:3" (cache st') = None.
Proof.
  eexists _, _. split; [reflexivity|].
  exact (failed_getSchema_caches_nothing isNetworkOrIdempotentRequestError
           Examples.defaults (Examples.always Examples.teapot)
           0 1 "billing" "invoice" "3" Examples.two_entries _ _ eq_refl).
Defined.

Section CacheRoundTrip.

Context {Obj : Type}.
Variable isNetworkOrIdempotentRequestError : AxiosError.t -> bool.
Variable config : ClientConfig.
Variable net : nat -> Request Obj -> Settled Obj.

Lemma cache_get_peek_none ttl now k (c : list (Entry Obj)) :
  cache_peek k c = None → cache_get ttl now k c = (None, c).
Proof. intros H. unfold cache_get. rewrite H. reflexivity. Qed.

(** What a request surfaces and logs depends on the log alone, not on the
    cache. *)
Lemma http_ignores_cache (request : Request Obj) (st st0 : State Obj) :
  log st = log st0 →
  (http isNetworkOrIdempotentRequestError config net request st).1
    = (http isNetworkOrIdempotentRequestError config net request st0).1
  ∧ log (http isNetworkOrIdempotentRequestError config net request st).2
    = log (http isNetworkOrIdempotentRequestError config net request st0).2.
Proof.
  intros Hlog. unfold http. rewrite Hlog.
  destruct (send _ _ _ _ _); split; reflexivity.
Qed.

End CacheRoundTrip.

(** X17. After a [getSchema] that fetched the schema from the server, a
    further [getSchema] for the same schema returns the same response
    without a request for as long as the entry is fresh, that is until
    [ttl] after it was stored, provided the cache can hold an entry. *)
Theorem getSchema_is_cached_after_a_fetch {Obj : Type}
    (isNetworkOrIdempotentRequestError : AxiosError.t -> bool)
    (config : ClientConfig) (net : nat -> Request Obj -> Settled Obj)
    (now later : Z) (namespace name version : string)
    (st st' : State Obj) (data : Obj) :
  getSchema isNetworkOrIdempotentRequestError config net
    now later namespace name version st = (Returned data, st') →
  (length (log st) < length (log st'))%nat →
  (0 < max config)%nat →
  ∀ t t', (t - later ≤ ttl config)%Z →
    ∃ st'',
      getSchema isNetworkOrIdempotentRequestError config net
        t t' namespace name version st' = (Returned data, st'')
      ∧ log st'' = log st'.
Proof.
  unfold getSchema at 1.
  destruct (cache_get _ _ _ _) as [[cached|] c] eqn:Hget.
  - intros [= _ <-]. simpl. lia.
  - match goal with |- context [http _ _ _ ?r ?s] =>
      destruct (http isNetworkOrIdempotentRequestError config net r s)
        as [[data'|error] st1]
    end; [|discriminate].
    intros [= -> <-] _ Hmax t t' Hfresh. simpl.
    pose proof (cache_get_set (ttl config) (max config) t later
                  (cacheKey namespace name version) data (cache st1) Hmax Hfresh)
      as Hhit.
    destruct (cache_get (ttl config) t (cacheKey namespace name version)
                (cache_set (max config) later (cacheKey namespace name version)
                   data (cache st1))) as [found c'] eqn:Hget'.
    simpl in Hhit. subst found.
    eexists. split.
    + apply getSchema_cached. simpl. exact Hget'.
    + reflexivity.
Qed.

(** The theorem at an empty cache: the schema is fetched at clock reading
    1 and served from the cache at 300001. *)
Lemma getSchema_is_cached_witness :
  ∃ st' st'',
    getSchema isNetworkOrIdempotentRequestError Examples.defaults Examples.ok
      0 1 "billing" "invoice" "1" new_client = (Returned "{}", st')
    ∧ getSchema isNetworkOrIdempotentRequestError Examples.defaults Examples.ok
        300001 300002 "billing" "invoice" "1" st' = (Returned "{}", st'')
    ∧ log st'' = log st'.
Proof.
  eexists _. 
  destruct (getSchema_is_cached_after_a_fetch isNetworkOrIdempotentRequestError
              Examples.defaults Examples.ok 0 1 "billing" "invoice" "1"
              new_client _ "{}" eq_refl ltac:(simpl; lia) ltac:(vm_compute; lia)
              300001%Z 300002%Z ltac:(vm_compute; discriminate))
    as (st'' & Hget & Hlog).
  exists st''. split; [reflexivity|]. split; [exact Hget | exact Hlog].
Defined.

(** X18. [getSchema] sends no request exactly when the cache holds a fresh
    entry for the schema: a missing and a stale entry both lead to a
    request. *)
Theorem getSchema_requests_iff_not_cached {Obj : Type}
    (isNetworkOrIdempotentRequestError : AxiosError.t -> bool)
    (config : ClientConfig) (net : nat -> Request Obj -> Settled Obj)
    (now later : Z) (namespace name version : string) (st : State Obj) :
  log (getSchema isNetworkOrIdempotentRequestError config net
         now later namespace name version st).2 = log st
  ↔ is_Some (cache_get (ttl config) now (cacheKey namespace name version)
               (cache st)).1.
Proof.
  split.
  - intros Hlog.
    destruct (cache_get (ttl config) now (cacheKey namespace name version)
                (cache st)).1 as [cached|] eqn:Hget; [by eexists|].
    pose proof (getSchema_log isNetworkOrIdempotentRequestError config net
                  now later namespace name version st Hget) as Hlt.
    rewrite Hlog in Hlt. lia.
  - intros [cached Hget].
    destruct (cache_get (ttl config) now (cacheKey namespace name version)
                (cache st)) as [found c] eqn:Hpair.
    simpl in Hget. subst found.
    rewrite (getSchema_cached isNetworkOrIdempotentRequestError config net
               now later namespace name version st cached c Hpair).
    reflexivity.
Qed.

(** The theorem at the cache with two entries: version 2 is fresh at
    clock reading 20 and is returned without a request. *)
Lemma getSchema_requests_witness :
  is_Some (cache_get (ttl Examples.defaults) 20 (cacheKey "billing" "invoice" "2")
             (cache Examples.two_entries)).1
  ∧ log (getSchema isNetworkOrIdempotentRequestError Examples.defaults Examples.ok
           20 21 "billing" "invoice" "2" Examples.two_entries).2
    = log Examples.two_entries.
Proof.
  assert (H : is_Some (cache_get (ttl Examples.defaults) 20
                         (cacheKey "billing" "invoice" "2")
                         (cache Examples.two_entries)).1)
    by (by eexists).
  split; [exact H|].
  exact (proj2 (getSchema_requests_iff_not_cached isNetworkOrIdempotentRequestError
                  Examples.defaults Examples.ok 20 21 "billing" "invoice" "2"
                  Examples.two_entries) H).
Defined.

(** X19. After a successful [deleteSchema] a [getSchema] for the same
    schema always asks the server: the deleted schema is never served
    from the cache. *)
Theorem getSchema_after_deleteSchema_asks_the_server {Obj : Type}
    (isNetworkOrIdempotentRequestError : AxiosError.t -> bool)
    (config : ClientConfig) (net : nat -> Request Obj -> Settled Obj)
    (namespace name version : string) (st st' : State Obj) :
  deleteSchema isNetworkOrIdempotentRequestError config net namespace name version st
    = (Returned tt, st') →
  ∀ now later,
    (length (log st')
     < length (log (getSchema isNetworkOrIdempotentRequestError config net
                      now later namespace name version st').2))%nat.
Proof.
  intros Hdel now later. apply getSchema_log.
  rewrite (deleteSchema_cache _ _ _ _ _ _ _ _ Hdel).
  rewrite cache_get_peek_none by apply cache_peek_delete_eq. reflexivity.
Qed.

(** The theorem at the cache with two entries: version 1 is deleted and
    then fetched again. *)
Lemma getSchema_after_deleteSchema_witness :
  ∃ st',
    deleteSchema isNetworkOrIdempotentRequestError Examples.defaults Examples.ok
      "billing" "invoice" "1" Examples.two_entries = (Returned tt, st')
    ∧ (length (log st')
       < length (log (getSchema isNetworkOrIdempotentRequestError Examples.defaults
                        Examples.ok 20 21 "billing" "invoice" "1" st').2))%nat.
Proof.
  eexists. split; [reflexivity|].
  exact (getSchema_after_deleteSchema_asks_the_server
           isNetworkOrIdempotentRequestError Examples.defaults Examples.ok
           "billing" "invoice" "1" Examples.two_entries _ eq_refl 20%Z 21%Z).
Defined.

(** X20. [clearCache] returns without a request and empties the cache:
    after it every [getSchema] asks the server. *)
Theorem clearCache_forgets_everything {Obj : Type}
    (isNetworkOrIdempotentRequestError : AxiosError.t -> bool)
    (config : ClientConfig) (net : nat -> Request Obj -> Settled Obj)
    (st : State Obj) :
  (clearCache st).1 = Returned tt
  ∧ log (clearCache st).2 = log st
  ∧ cache (clearCache st).2 = []
  ∧ ∀ now later namespace name version,
      (length (log st)
       < length (log (getSchema isNetworkOrIdempotentRequestError config net
                        now later namespace name version (clearCache st).2).2))%nat.
Proof.
  split_and!; try reflexivity.
  intros now later namespace name version.
  change (log st) with (log (clearCache st).2) at 1.
  apply getSchema_log. reflexivity.
Qed.

(** X21. Every call keeps the cache well formed: it holds at most one
    entry per key and at most [max] entries, as the cache of a new client
    does. *)
Theorem cache_stays_well_formed {Obj : Type}
    (isNetworkOrIdempotentRequestError : AxiosError.t -> bool)
    (config : ClientConfig) (net : nat -> Request Obj -> Settled Obj)
    (call : Call) (st : State Obj) :
  NoDup (keys (cache st)) →
  (length (cache st) ≤ max config)%nat →
  NoDup (keys (cache (run isNetworkOrIdempotentRequestError config net call st).2))
  ∧ (length (cache (run isNetworkOrIdempotentRequestError config net call st).2)
     ≤ max config)%nat.
Proof.
  intros Hnd Hlen. split; [by apply run_NoDup_keys|].
  destruct call as
    [schema | now later namespace name version | namespace name
    | namespace name version data | namespace name newSchema | query | namespace
    | namespace name version | ];
    cbn [run]; rewrite ?outcome_state;
    unfold registerSchema, getLatestSchema, validate, Client.checkCompatibility,
      searchSchemas, listSchemas;
    rewrite ?try_request_cache; try exact Hlen.
  - unfold getSchema.
    pose proof (cache_get_le (ttl config) now (cacheKey namespace name version)
                  (cache st)) as Hget.
    destruct (cache_get _ _ _ _) as [[cached|] c]; simpl in *; [lia|].
    match goal with |- context [http _ _ _ ?r ?s] =>
      pose proof (http_cache isNetworkOrIdempotentRequestError config net r s) as Hc;
      destruct (http isNetworkOrIdempotentRequestError config net r s)
        as [[data|error] st1]
    end; simpl in *.
    + apply cache_set_le.
    + rewrite Hc. lia.
  - unfold deleteSchema.
    match goal with |- context [http _ _ _ ?r ?s] =>
      pose proof (http_cache isNetworkOrIdempotentRequestError config net r s) as Hc;
      destruct (http isNetworkOrIdempotentRequestError config net r s)
        as [[data|error] st1]
    end; simpl in *; rewrite Hc; [|exact Hlen].
    pose proof (cache_delete_le (cacheKey namespace name version) (cache st)). lia.
  - simpl. lia.
Qed.

(** The theorem at a cache of size one that already holds an entry: the
    fetch of another schema keeps the size at one. *)
Lemma cache_stays_well_formed_witness :
  NoDup (keys (cache one_cached))
  ∧ (length (cache one_cached) ≤ max one_entry)%nat
  ∧ NoDup (keys (cache (run isNetworkOrIdempotentRequestError one_entry Examples.ok
                          (CallGetSchema 0 1 "billing" "invoice" "2") one_cached).2))
  ∧ (length (cache (run isNetworkOrIdempotentRequestError one_entry Examples.ok
                      (CallGetSchema 0 1 "billing" "invoice" "2") one_cached).2)
     ≤ max one_entry)%nat.
Proof.
  assert (Hnd : NoDup (keys (cache one_cached))) by compute_done.
  assert (Hlen : (length (cache one_cached) ≤ max one_entry)%nat)
    by (vm_compute; lia).
  split; [exact Hnd|]. split; [exact Hlen|].
  exact (cache_stays_well_formed isNetworkOrIdempotentRequestError one_entry
           Examples.ok (CallGetSchema 0 1 "billing" "invoice" "2") one_cached
           Hnd Hlen).
Defined.

(** ** Cache keys and paths *)

(** Two strings that agree after a colon-free prefix and a colon have the
    same prefix and the same rest. *)
Lemma colon_free_prefix (a b x y : string) :
  colon_free a = true → colon_free b = true →
  a ++ ":" ++ x = b ++ ":" ++ y → a = b ∧ x = y.
Proof.
  revert b. induction a as [|c a IH]; intros [|d b] Ha Hb Heq;
    cbn in Ha, Hb, Heq.
  - injection Heq as Heq. change (x = y) in Heq. by split.
  - injection Heq as <- _. discriminate Hb.
  - injection Heq as -> _. discriminate Ha.
  - injection Heq as -> Heq.
    apply andb_true_iff in Ha as [_ Ha]. apply andb_true_iff in Hb as [_ Hb].
    destruct (IH b Ha Hb Heq) as [-> ->]. by split.
Qed.

(** X22. For namespaces and names without a colon the cache key
    determines the schema: two calls share a cache entry only when
    namespace, name and version are the same. *)
Theorem cacheKey_injective (namespace name version namespace' name' version' : string) :
  colon_free namespace = true → colon_free name = true →
  colon_free namespace' = true → colon_free name' = true →
  cacheKey namespace name version = cacheKey namespace' name' version' →
  namespace = namespace' ∧ name = name' ∧ version = version'.
Proof.
  intros Hns Hn Hns' Hn' Hkey. unfold cacheKey in Hkey.
  apply colon_free_prefix in Hkey as [-> Hkey]; [|assumption..].
  apply colon_free_prefix in Hkey as [-> ->]; [|assumption..].
  by split_and!.
Qed.

(** The theorem at a version that contains a colon. *)
Lemma cacheKey_injective_witness :
  colon_free "billing" = true
  ∧ colon_free "invoice" = true
  ∧ cacheKey "billing" "invoice" "1:2" = "billing:invoice:1:2"
  ∧ "billing" = "billing" ∧ "invoice" = "invoice" ∧ "1:2" = "1:2".
Proof.
  split; [reflexivity|]. split; [reflexivity|]. split; [reflexivity|].
  apply (cacheKey_injective "billing" "invoice" "1:2" "billing" "invoice" "1:2");
    reflexivity.
Defined.

(** X23. With the version [latest], [getSchema] on a cache miss sends the
    request of [getLatestSchema] and completes as it does; unlike
    [getLatestSchema] it then stores the response under the key
    [namespace:name:latest]. *)
Theorem getSchema_latest_is_getLatestSchema {Obj : Type}
    (isNetworkOrIdempotentRequestError : AxiosError.t -> bool)
    (config : ClientConfig) (net : nat -> Request Obj -> Settled Obj)
    (now later : Z) (namespace name : string) (st : State Obj) :
  (cache_get (ttl config) now (cacheKey namespace name "latest") (cache st)).1 = None →
  (getSchema isNetworkOrIdempotentRequestError config net
     now later namespace name "latest" st).1
    = (getLatestSchema isNetworkOrIdempotentRequestError config net namespace name st).1
  ∧ log (getSchema isNetworkOrIdempotentRequestError config net
           now later namespace name "latest" st).2
    = log (getLatestSchema isNetworkOrIdempotentRequestError config net
             namespace name st).2
  ∧ ∀ data,
      (getSchema isNetworkOrIdempotentRequestError config net
         now later namespace name "latest" st).1 = Returned data →
      (0 < max config)%nat →
      value <$> cache_peek (cacheKey namespace name "latest")
                  (cache (getSchema isNetworkOrIdempotentRequestError config net
                            now later namespace name "latest" st).2)
        = Some data.
Proof.
  intros Hmiss. unfold getSchema, getLatestSchema, try_request.
  destruct (cache_get _ _ _ _) as [[cached|] c]; simpl in Hmiss; [discriminate|].
  change ("/schemas/" ++ namespace ++ "/" ++ name ++ "/" ++ "latest")
    with ("/schemas/" ++ namespace ++ "/" ++ name ++ "/latest").
  match goal with |- context [http _ _ _ ?r {| cache := c; log := log st |}] =>
    pose proof (http_ignores_cache isNetworkOrIdempotentRequestError config net r
                  {| cache := c; log := log st |} st eq_refl) as [H1 Hlog];
    destruct (http isNetworkOrIdempotentRequestError config net r
                {| cache := c; log := log st |}) as [settled st1];
    destruct (http isNetworkOrIdempotentRequestError config net r st)
      as [settled' st2]
  end.
  simpl in H1, Hlog. subst settled'.
  destruct settled as [data|error]; simpl; (split_and!; [reflexivity | exact Hlog |]).
  - intros data' [= <-] Hmax. unfold cache_set, cache_peek.
    destruct (max config) as [|m]; [lia|]. simpl.
    unfold is_key at 1. simpl. rewrite String.eqb_refl. reflexivity.
  - discriminate.
Qed.

(** The theorem at an empty cache. *)
Lemma getSchema_latest_witness :
  (getSchema isNetworkOrIdempotentRequestError Examples.defaults Examples.ok
     0 1 "billing" "invoice" "latest" new_client).1
    = (getLatestSchema isNetworkOrIdempotentRequestError Examples.defaults Examples.ok
         "billing" "invoice" new_client).1
  ∧ log (getSchema isNetworkOrIdempotentRequestError Examples.defaults Examples.ok
           0 1 "billing" "invoice" "latest" new_client).2
    = log (getLatestSchema isNetworkOrIdempotentRequestError Examples.defaults
             Examples.ok "billing" "invoice" new_client).2.
Proof.
  pose proof (getSchema_latest_is_getLatestSchema isNetworkOrIdempotentRequestError
                Examples.defaults Examples.ok 0 1 "billing" "invoice" new_client
                eq_refl) as (H1 & H2 & _).
  split; [exact H1 | exact H2].
Defined.
